(** * tomato: the BioLogic driver's connect/operate/disconnect functions
      and the pipeline commands of the command line client

    Shallow embedding of
    - [src/tomato/drivers/biologic/main.py]: [safe_api_connect],
      [safe_api_disconnect], [get_status], [get_data], [start_job],
      [stop_job];
    - [src/tomato/tomato/__init__.py]: [set_loglevel], [get_pipelines],
      [status], [pipeline_load], [pipeline_eject], [pipeline_ready];
    - [src/tomato/__init__.py]: [set_loglevel] and the log level of
      [run_tomato] and [run_ketchup].

    Python code is embedded in a state-and-exception monad.  The state is
    the chronological list of interactions with the outside world (lock
    file, vendor API, sleeps, job queue) together with the local variables
    of the running function; the outside world answers each interaction as
    a function of everything that happened before it, so every theorem
    quantified over an environment holds for every deterministic stub. *)

From Stdlib Require Import ZArith Lia.
From stdpp Require Import base strings list gmap pretty.

Open Scope Z_scope.

(** ** Python exceptions and results *)

(** The exceptions that occur in the embedded code.  All of them derive
    from Python's [Exception], so an [except Exception] clause catches each
    of them. *)
Inductive PyExc : Type :=
| Exception (msg : string)         (* raise Exception(msg) *)
| TypeError (callee : string)       (* a call that does not bind every parameter of callee *)
| UnboundLocalError (var : string)  (* a local variable read before assignment *)
| ValueError (msg : string)
| OverflowError (msg : string)
| OSError (errno : Z)
| LockTimeout (lockfile : string)   (* filelock.Timeout *)
| ApiError (code : Z).              (* an error raised by the vendor API wrapper *)

Inductive Result (A : Type) : Type :=
| Ok (a : A)
| Raise (e : PyExc).
Arguments Ok {A} a.
Arguments Raise {A} e.

Module Biologic.

(** ** Data of the vendor API *)

(** The fields of [device_info] and [channel_info] that [get_status] reads. *)
Record DeviceInfo := {
  model : string;
  NumberOfChannels : Z
}.

Record ChannelInfo := {
  state : string;
  board : string;
  amplifier : string;
  NbAmps : Z;
  min_IRange : string;
  max_IRange : string
}.

(** Technique parameters in the instrument's format, the raw data buffer,
    the payload and the capacity are opaque to the functions embedded here:
    they are only handed on to [kbio_wrapper] and to the API. *)
Definition EccPars : Type := list (string * Z).
Definition RawData : Type := list Z.
Definition Payload : Type := list (string * list (string * Z)).
Definition Capacity : Type := Z.

Record ParsedData := {
  data_rows : Z;            (* data["technique"]["data_rows"] *)
  data_points : list Z
}.

Record Metadata := {
  dll_version : string;
  device_model : string;
  device_channels : Z;
  channel_state : string;
  channel_board : string;
  channel_amp : option string;
  channel_I_ranges : string * string
}.

(** ** Interactions with the outside world *)

Inductive Event : Type :=
| EvAcquire (lockpath : string)        (* FileLock(lockpath, timeout=60) entered *)
| EvAcquireFailed (lockpath : string)  (* entering the FileLock raised *)
| EvRelease (lockpath : string)        (* the with block of the FileLock was left *)
| EvSleep (seconds : Z)
| EvGetLibVersion (r : Result string)
| EvConnect (address : string) (r : Result (Z * DeviceInfo))
| EvDisconnect (id_ : Z) (r : Result unit)
| EvGetChannelInfo (id_ channel : Z) (r : Result ChannelInfo)
| EvGetData (id_ channel : Z) (r : Result RawData)
| EvLoadTechnique (id_ channel : Z) (techfile : string) (pars : EccPars)
                  (first last display : bool) (r : Result unit)
| EvStartChannel (id_ channel : Z) (r : Result unit)
| EvStopChannel (id_ channel : Z) (r : Result unit)
| EvQueueClose.

(** The environment: the lock file, the object returned by
    [get_kbio_api(dllpath)], the clock, and the helpers of [kbio_wrapper]
    (not part of the embedded sources, taken as parameters).  Each answer
    may depend on the whole history.  [os_sleep] is what the platform makes
    of [time.sleep(seconds)] for a length that is not negative: it sleeps,
    or it raises, as it does ([OverflowError], [OSError]) for a length
    beyond what its clock takes at that moment. *)
Record Env := {
  lock_acquire : list Event -> string -> Result unit;
  os_sleep : list Event -> Z -> Result unit;
  GetLibVersion : list Event -> Result string;
  Connect : list Event -> string -> Result (Z * DeviceInfo);
  Disconnect : list Event -> Z -> Result unit;
  GetChannelInfo : list Event -> Z -> Z -> Result ChannelInfo;
  GetData : list Event -> Z -> Z -> Result RawData;
  LoadTechnique : list Event -> Z -> Z -> string -> EccPars -> bool -> bool -> bool -> Result unit;
  StartChannel : list Event -> Z -> Z -> Result unit;
  StopChannel : list Event -> Z -> Z -> Result unit;
  clock : list Event -> Z;
  payload_to_ecc : Payload -> Capacity -> Result (list (string * EccPars));
  get_kbio_techpath : string -> string -> string -> string;
  parse_raw_data : RawData -> string -> Result ParsedData
}.

(** ** Local variables and the monad *)

(** The local variables that the driver functions read outside the [try]
    block that assigns them; [None] is an unassigned variable. *)
Record Locals := {
  v_device_info : option DeviceInfo;
  v_channel_info : option ChannelInfo;
  v_data : option RawData;
  v_dt : option Z
}.

Definition no_locals : Locals :=
  {| v_device_info := None; v_channel_info := None; v_data := None; v_dt := None |}.

Record World := {
  trace : list Event;
  locals : Locals
}.

Definition record_event (e : Event) (w : World) : World :=
  {| trace := trace w ++ [e]; locals := locals w |}.

Definition M (A : Type) : Type := World -> World * Result A.

Definition ret {A} (a : A) : M A := fun w => (w, Ok a).

Definition raise {A} (e : PyExc) : M A := fun w => (w, Raise e).

Definition bind {A B} (c : M A) (k : A -> M B) : M B := fun w =>
  match c w with
  | (w', Ok a) => k a w'
  | (w', Raise e) => (w', Raise e)
  end.

Declare Scope py_scope.
Delimit Scope py_scope with py.
Notation "x <- c ;; k" := (bind c (fun x => k))
  (at level 100, c at next level, right associativity) : py_scope.
Notation "c ;; k" := (bind c (fun _ => k))
  (at level 100, k at level 200, right associativity) : py_scope.
Open Scope py_scope.

(** [try: body except Exception as e: handler e]. *)
Definition try_except {A} (body : M A) (handler : PyExc -> M A) : M A := fun w =>
  match body w with
  | (w', Ok a) => (w', Ok a)
  | (w', Raise e) => handler e w'
  end.

(** Calls of [logger] leave no mark on the world. *)
Definition log (msg : string) : M unit := ret tt.

(** The binding of positional arguments at a call: when the number of
    arguments differs from the number of parameters (none of the callees
    below has a default value), Python raises [TypeError] at the call and
    the body of the callee does not run. *)
Definition call {A} (callee : string) (params : list string) (nargs : nat)
    (body : M A) : M A :=
  if decide (nargs = length params) then body else raise (TypeError callee).

(** A function body runs on local variables of its own. *)
Definition with_new_frame {A} (body : M A) : M A := fun w =>
  match body {| trace := trace w; locals := no_locals |} with
  | (w', r) => ({| trace := trace w'; locals := locals w |}, r)
  end.

Definition read_var {A} (name : string) (field : Locals -> option A) : M A := fun w =>
  match field (locals w) with
  | Some v => (w, Ok v)
  | None => (w, Raise (UnboundLocalError name))
  end.

Definition assign (f : Locals -> Locals) : M unit := fun w =>
  ({| trace := trace w; locals := f (locals w) |}, Ok tt).

Definition set_device_info (d : DeviceInfo) : M unit :=
  assign (fun l => {| v_device_info := Some d; v_channel_info := v_channel_info l;
                      v_data := v_data l; v_dt := v_dt l |}).
Definition set_channel_info (c : ChannelInfo) : M unit :=
  assign (fun l => {| v_device_info := v_device_info l; v_channel_info := Some c;
                      v_data := v_data l; v_dt := v_dt l |}).
Definition set_data (d : RawData) : M unit :=
  assign (fun l => {| v_device_info := v_device_info l; v_channel_info := v_channel_info l;
                      v_data := Some d; v_dt := v_dt l |}).
Definition set_dt (t : Z) : M unit :=
  assign (fun l => {| v_device_info := v_device_info l; v_channel_info := v_channel_info l;
                      v_data := v_data l; v_dt := Some t |}).

(** [for x in xs: body], where the body yields [Some v] for [return v] and
    [None] when the loop goes on with the next item. *)
Fixpoint for_in {X R} (xs : list X) (body : X -> M (option R)) : M (option R) :=
  match xs with
  | [] => ret None
  | x :: rest =>
      r <- body x;;
      match r with
      | Some v => ret (Some v)
      | None => for_in rest body
      end
  end.

Definition range (n : Z) : list Z := map Z.of_nat (seq 0 (Z.to_nat n)).

Definition return_ {R} (v : R) : M (option R) := ret (Some v).
Definition next_item {R} : M (option R) := ret None.

Section WithEnv.

Variable E : Env.

(** An interaction whose answer comes from the environment. *)
Definition interact {A} (oracle : list Event -> Result A) (ev : Result A -> Event) : M A :=
  fun w => let r := oracle (trace w) in (record_event (ev r) w, r).

Definition api_GetLibVersion : M string :=
  interact (GetLibVersion E) EvGetLibVersion.
Definition api_Connect (address : string) : M (Z * DeviceInfo) :=
  interact (fun h => Connect E h address) (EvConnect address).
Definition api_Disconnect (id_ : Z) : M unit :=
  interact (fun h => Disconnect E h id_) (EvDisconnect id_).
Definition api_GetChannelInfo (id_ channel : Z) : M ChannelInfo :=
  interact (fun h => GetChannelInfo E h id_ channel) (EvGetChannelInfo id_ channel).
Definition api_GetData (id_ channel : Z) : M RawData :=
  interact (fun h => GetData E h id_ channel) (EvGetData id_ channel).
Definition api_LoadTechnique (id_ channel : Z) (techfile : string) (pars : EccPars)
    (first last display : bool) : M unit :=
  interact (fun h => LoadTechnique E h id_ channel techfile pars first last display)
           (EvLoadTechnique id_ channel techfile pars first last display).
Definition api_StartChannel (id_ channel : Z) : M unit :=
  interact (fun h => StartChannel E h id_ channel) (EvStartChannel id_ channel).
Definition api_StopChannel (id_ channel : Z) : M unit :=
  interact (fun h => StopChannel E h id_ channel) (EvStopChannel id_ channel).

(** [with FileLock(lockpath, timeout=60): body].  When the lock cannot be
    entered the body does not run; once entered, the lock is released when
    the block is left, by its end, by a [return] or by an exception. *)
Definition with_FileLock {A} (lockpath : string) (body : M A) : M A := fun w =>
  match lock_acquire E (trace w) lockpath with
  | Raise e => (record_event (EvAcquireFailed lockpath) w, Raise e)
  | Ok _ =>
      match body (record_event (EvAcquire lockpath) w) with
      | (w', r) => (record_event (EvRelease lockpath) w', r)
      end
  end.

(** [time.sleep(seconds)] raises [ValueError] for a negative argument; for
    any other the platform answers, and nothing has been slept when it
    raises. *)
Definition sleep (seconds : Z) : M unit :=
  if decide (seconds < 0)
  then raise (ValueError "sleep length must be non-negative")
  else fun w =>
    match os_sleep E (trace w) seconds with
    | Ok _ => (record_event (EvSleep seconds) w, Ok tt)
    | Raise e => (w, Raise e)
    end.

(** [datetime.now(timezone.utc)], as the number the clock shows. *)
Definition now : M Z := fun w => (w, Ok (clock E (trace w))).

Definition lift {A} (r : Result A) : M A := fun w => (w, r).

(** ** [safe_api_connect] (main.py, lines 14-64) *)

Definition safe_api_connect_params : list string :=
  ["api"; "address"; "lockpath"; "retries"; "time_sleep"; "logger"].

(** Lines 54-63: one pass through the body of the loop. *)
Definition connect_attempt (address lockpath : string) (time_sleep : Z)
    : M (option (Z * DeviceInfo)) :=
  try_except
    (log "NukP: Safe_api_connect try clause";;
     with_FileLock lockpath
       (log "NukP: Safe_api_connect FileLock clause";;
        conn <- api_Connect address;;
        return_ conn))
    (fun e =>
       log "NukP: Safe_api_connect Except clause - before sleep";;
       sleep time_sleep;;
       log "NukP: Safe_api_connect Except clause - after sleep";;
       next_item).

Definition safe_api_connect (address lockpath : string) (retries time_sleep : Z)
    : M (Z * DeviceInfo) :=
  log "NukP: start Safe_api_connect";;
  r <- for_in (range retries) (fun _ => connect_attempt address lockpath time_sleep);;
  match r with
  | Some conn => ret conn
  | None => raise (Exception ("Failed to connect after " +:+ pretty retries +:+ " retries"))
  end.

(** ** [safe_api_disconnect] (main.py, lines 67-113)

    The body of the loop has no [return]: after an attempt, successful or
    not, the loop goes on, and the [raise] after the loop is reached
    whenever the loop ends. *)

Definition safe_api_disconnect_params : list string :=
  ["api"; "id_"; "lockpath"; "retries"; "time_sleep"; "logger"].

(** Lines 102-112: one pass through the body of the loop. *)
Definition disconnect_attempt (id_ : Z) (lockpath : string) (time_sleep : Z)
    : M (option unit) :=
  try_except
    (log "NukP: Safe_api_disconnect try clause";;
     with_FileLock lockpath
       (log "NukP: Safe_api_disconnect FileLock clause";;
        api_Disconnect id_);;
     next_item)
    (fun e =>
       log "NukP: Safe_api_disconnect Except clause - before sleep";;
       sleep time_sleep;;
       log "NukP: Safe_api_disconnect Except clause - after sleep";;
       next_item).

Definition safe_api_disconnect (id_ : Z) (lockpath : string) (retries time_sleep : Z)
    : M unit :=
  log "NukP: start Safe_api_disconnect";;
  r <- for_in (range retries) (fun _ => disconnect_attempt id_ lockpath time_sleep);;
  match r with
  | Some v => ret v
  | None => raise (Exception ("Failed to disconnect after " +:+ pretty retries +:+ " retries"))
  end.

(** ** [get_status] (main.py, lines 116-175)

    [safe_api_connect] and [safe_api_disconnect] are called with five
    positional arguments (lines 154 and 158). *)

(** Lines 167-173: the ready flag of a channel state. *)
Definition ready_of_channel_state (channel_state : string) : M bool :=
  if decide (channel_state = "STOP") then ret true
  else if decide (channel_state = "RUN") then ret false
  else
    log "channel state not understood";;
    raise (ValueError "channel state not understood").

(** Lines 155-158: the rest of the [try] block once the connection is there. *)
Definition get_status_connected (id_ channel : Z) (lockpath : string)
    (retries time_sleep : Z) : M unit :=
  log "getting status";;
  channel_info <- api_GetChannelInfo id_ channel;;
  set_channel_info channel_info;;
  log "disconnecting";;
  call "safe_api_disconnect" safe_api_disconnect_params 5
    (safe_api_disconnect id_ lockpath retries time_sleep).

Definition get_status (address : string) (channel : Z) (lockpath : string)
    (retries time_sleep : Z) : M (Z * bool * Metadata) :=
  with_new_frame
    (log "NukP: Start get_status";;
     version <- api_GetLibVersion;;
     try_except
       (log "NukP: Start get_status - try loop";;
        conn <- call "safe_api_connect" safe_api_connect_params 5
                  (safe_api_connect address lockpath retries time_sleep);;
        set_device_info (snd conn);;
        get_status_connected (fst conn) channel lockpath retries time_sleep)
       (fun e => log "e=");;
     device_info <- read_var "device_info" v_device_info;;
     channel_info <- read_var "channel_info" v_channel_info;;
     let metadata :=
       {| dll_version := version;
          device_model := model device_info;
          device_channels := NumberOfChannels device_info;
          channel_state := state channel_info;
          channel_board := board channel_info;
          channel_amp := if decide (NbAmps channel_info = 0) then None
                         else Some (amplifier channel_info);
          channel_I_ranges := (min_IRange channel_info, max_IRange channel_info) |} in
     ready <- ready_of_channel_state (channel_state metadata);;
     dt <- now;;
     ret (dt, ready, metadata)).

(** ** [get_data] (main.py, lines 178-224)

    In [parse_raw_data(api, data, device_info.model)] the arguments are
    evaluated from left to right: [data] is read before [device_info]. *)
Definition get_data (address : string) (channel : Z) (lockpath : string)
    (retries time_sleep : Z) : M (Z * Z * ParsedData) :=
  with_new_frame
    (log "NukP: Start get_data";;
     try_except
       (log "NukP: get_data - try loop";;
        conn <- call "safe_api_connect" safe_api_connect_params 5
                  (safe_api_connect address lockpath retries time_sleep);;
        set_device_info (snd conn);;
        data <- api_GetData (fst conn) channel;;
        set_data data;;
        call "safe_api_disconnect" safe_api_disconnect_params 5
          (safe_api_disconnect (fst conn) lockpath retries time_sleep))
       (fun e => log "e=");;
     dt <- now;;
     data <- read_var "data" v_data;;
     device_info <- read_var "device_info" v_device_info;;
     parsed <- lift (parse_raw_data E data (model device_info));;
     ret (dt, data_rows parsed, parsed)).

(** ** [start_job] (main.py, lines 227-302) *)

(** Lines 284-293: the loop over [eccpars], with the local variables
    [first], [last] and [ti] it updates. *)
Fixpoint load_techniques (dllpath : string) (id_ channel : Z) (device_info : DeviceInfo)
    (ntechs : Z) (eccpars : list (string * EccPars)) (first last : bool) (ti : Z)
    : M unit :=
  match eccpars with
  | [] => ret tt
  | (techname, pars) :: rest =>
      let last := if decide (ti = ntechs) then true else last in
      let techfile := get_kbio_techpath E dllpath techname (model device_info) in
      log "loading technique";;
      api_LoadTechnique id_ channel techfile pars first last false;;
      load_techniques dllpath id_ channel device_info ntechs rest false last (ti + 1)
  end.

Definition start_job (address : string) (channel : Z) (payload : Payload)
    (dllpath lockpath : string) (retries time_sleep : Z) (capacity : Capacity) : M Z :=
  with_new_frame
    (log "NukP: Start start_job";;
     eccpars <- lift (payload_to_ecc E payload capacity);;
     let ntechs := Z.of_nat (length eccpars) in
     try_except
       (log "NukP: start_job try clause";;
        conn <- call "safe_api_connect" safe_api_connect_params 5
                  (safe_api_connect address lockpath retries time_sleep);;
        load_techniques dllpath (fst conn) channel (snd conn) ntechs eccpars true false 1;;
        log "starting run";;
        api_StartChannel (fst conn) channel;;
        log "disconnecting";;
        call "safe_api_disconnect" safe_api_disconnect_params 5
          (safe_api_disconnect (fst conn) lockpath retries time_sleep))
       (fun e => log "e=");;
     dt <- now;;
     log "run started";;
     ret dt).

(** ** [stop_job] (main.py, lines 305-355)

    [jobqueue] is the truth value of the [jobqueue] argument.  Line 346
    formats [dt], which is assigned on line 354 only. *)

(** Lines 344-347: the rest of the [try] block once the connection is there. *)
Definition stop_job_connected (conn : Z * DeviceInfo) (channel : Z)
    (lockpath : string) (retries time_sleep : Z) : M unit :=
  log "stopping run";;
  api_StopChannel (fst conn) channel;;
  dt <- read_var "dt" v_dt;;
  log "run stopped at dt";;
  call "safe_api_disconnect" safe_api_disconnect_params 5
    (safe_api_disconnect (fst conn) lockpath retries time_sleep).

Definition stop_job (address : string) (channel : Z) (jobqueue : bool)
    (lockpath : string) (retries time_sleep : Z) : M Z :=
  with_new_frame
    (log "NukP: Start stop_job";;
     try_except
       (log "NukP: stop_job - try clause";;
        conn <- call "safe_api_connect" safe_api_connect_params 5
                  (safe_api_connect address lockpath retries time_sleep);;
        stop_job_connected conn channel lockpath retries time_sleep)
       (fun e => log "e=");;
     (if jobqueue then (fun w => (record_event EvQueueClose w, Ok tt)) else ret tt);;
     dt <- now;;
     set_dt dt;;
     ret dt).

End WithEnv.

(** ** Observations on traces *)

(** Is the lock [l] held after the events [tr], when [held] tells whether
    it was held before them? *)
Fixpoint lock_held_after (l : string) (held : bool) (tr : list Event) : bool :=
  match tr with
  | [] => held
  | EvAcquire l' :: tr' => lock_held_after l (if decide (l' = l) then true else held) tr'
  | EvRelease l' :: tr' => lock_held_after l (if decide (l' = l) then false else held) tr'
  | _ :: tr' => lock_held_after l held tr'
  end.

(** The calls of the vendor API. *)
Definition is_api_call (e : Event) : bool :=
  match e with
  | EvGetLibVersion _ | EvConnect _ _ | EvDisconnect _ _ | EvGetChannelInfo _ _ _
  | EvGetData _ _ _ | EvLoadTechnique _ _ _ _ _ _ _ _ | EvStartChannel _ _ _
  | EvStopChannel _ _ _ => true
  | _ => false
  end.

(** Is every API call of [tr] made while the lock [l] is held? *)
Fixpoint api_calls_locked (l : string) (held : bool) (tr : list Event) : bool :=
  match tr with
  | [] => true
  | EvAcquire l' :: tr' => api_calls_locked l (if decide (l' = l) then true else held) tr'
  | EvRelease l' :: tr' => api_calls_locked l (if decide (l' = l) then false else held) tr'
  | e :: tr' => (if is_api_call e then held else true) && api_calls_locked l held tr'
  end.

Definition is_acquire (l : string) (e : Event) : bool :=
  match e with EvAcquire l' => bool_decide (l' = l) | _ => false end.

Definition is_release (l : string) (e : Event) : bool :=
  match e with EvRelease l' => bool_decide (l' = l) | _ => false end.

Definition is_connect (e : Event) : bool :=
  match e with EvConnect _ _ => true | _ => false end.

Definition is_disconnect (e : Event) : bool :=
  match e with EvDisconnect _ _ => true | _ => false end.

Definition is_load_or_start (e : Event) : bool :=
  match e with
  | EvLoadTechnique _ _ _ _ _ _ _ _ | EvStartChannel _ _ _ => true
  | _ => false
  end.

(** An attempt to enter the lock [l], successful or not: each pass through
    the loop of [safe_api_connect] or [safe_api_disconnect] makes one. *)
Definition is_attempt (l : string) (e : Event) : bool :=
  match e with
  | EvAcquire l' | EvAcquireFailed l' => bool_decide (l' = l)
  | _ => false
  end.

Definition count (p : Event -> bool) (tr : list Event) : nat :=
  length (filter (fun e => p e = true) tr).

(** The events that a computation adds to the trace of [w]. *)
Definition new_events {A} (c : M A) (w : World) : list Event :=
  drop (length (trace w)) (trace (fst (c w))).

(** The world [w] after the further events [es]. *)
Definition extend (es : list Event) (w : World) : World :=
  {| trace := trace w ++ es; locals := locals w |}.

(** [time.sleep] takes the length [seconds]: it is not negative and the
    platform sleeps for it, whatever has happened before. *)
Definition sleeps (E : Env) (seconds : Z) : Prop :=
  0 <= seconds /\ forall h, os_sleep E h seconds = Ok tt.

(** The environment [E] makes an attempt to connect fail after the history
    [h]: the lock cannot be entered, or it can and [api.Connect] raises under
    it.  The events are those of the attempt, up to the sleep. *)
Inductive connect_fails (E : Env) (address lockpath : string) (h : list Event)
    : list Event -> Prop :=
| connect_fails_lock e :
    lock_acquire E h lockpath = Raise e ->
    connect_fails E address lockpath h [EvAcquireFailed lockpath]
| connect_fails_api e :
    lock_acquire E h lockpath = Ok tt ->
    Connect E (h ++ [EvAcquire lockpath]) address = Raise e ->
    connect_fails E address lockpath h
      [EvAcquire lockpath; EvConnect address (Raise e); EvRelease lockpath].

(** The environment [E] makes an attempt to connect succeed after the
    history [h], with the answer [conn] of [api.Connect]. *)
Definition connect_succeeds (E : Env) (address lockpath : string) (h : list Event)
    (conn : Z * DeviceInfo) : Prop :=
  lock_acquire E h lockpath = Ok tt /\
  Connect E (h ++ [EvAcquire lockpath]) address = Ok conn.

(** What the successful attempt leaves in the trace. *)
Definition connect_success (address lockpath : string) (conn : Z * DeviceInfo)
    : list Event :=
  [EvAcquire lockpath; EvConnect address (Ok conn); EvRelease lockpath].

(** After the history [h] the environment [E] makes [n] attempts in a row
    fail, each one followed by a sleep of [time_sleep] seconds; [es] are the
    events of these attempts and sleeps. *)
Inductive failed_attempts (E : Env) (address lockpath : string) (time_sleep : Z)
    : list Event -> nat -> list Event -> Prop :=
| failed_attempts_O h :
    failed_attempts E address lockpath time_sleep h 0 []
| failed_attempts_S h es n rest :
    connect_fails E address lockpath h es ->
    failed_attempts E address lockpath time_sleep (h ++ es ++ [EvSleep time_sleep]) n rest ->
    failed_attempts E address lockpath time_sleep h (S n) (es ++ EvSleep time_sleep :: rest).

(** What a pass through the loop of [safe_api_disconnect] leaves. *)
Inductive disconnect_pass (id_ : Z) (lockpath : string) (time_sleep : Z)
    : list Event -> Prop :=
| disconnect_pass_lock :
    disconnect_pass id_ lockpath time_sleep
      [EvAcquireFailed lockpath; EvSleep time_sleep]
| disconnect_pass_raise e :
    disconnect_pass id_ lockpath time_sleep
      [EvAcquire lockpath; EvDisconnect id_ (Raise e); EvRelease lockpath;
       EvSleep time_sleep]
| disconnect_pass_ok :
    disconnect_pass id_ lockpath time_sleep
      [EvAcquire lockpath; EvDisconnect id_ (Ok tt); EvRelease lockpath].

(** Every API call of [es] is made under the lock [l], which is free
    before [es] and free again after it. *)
Definition lock_scoped (l : string) (es : list Event) : Prop :=
  api_calls_locked l false es = true /\ lock_held_after l false es = false.

(** The lock [l] is taken for one call at a time: the trace is made of
    acquisitions of [l] that are each followed by one event for which [call]
    holds and then by the release of [l], of failures to enter [l], and of
    sleeps; so no sleep and no second call is made while the lock is held. *)
Fixpoint lock_per_call (l : string) (call : Event -> bool) (tr : list Event) : bool :=
  match tr with
  | [] => true
  | EvAcquire l1 :: e :: EvRelease l2 :: tr' =>
      bool_decide (l1 = l) && call e && bool_decide (l2 = l) && lock_per_call l call tr'
  | EvAcquireFailed l1 :: tr' => bool_decide (l1 = l) && lock_per_call l call tr'
  | EvSleep _ :: tr' => lock_per_call l call tr'
  | _ => false
  end.

(** The lock [l] is taken once and given back once in [tr], and every API
    call of [tr] is made in between. *)
Definition held_throughout (l : string) (tr : list Event) : bool :=
  bool_decide (count (is_acquire l) tr = 1%nat)
  && bool_decide (count (is_release l) tr = 1%nat)
  && api_calls_locked l false tr.

(** The computation [c] returns or raises having added to the trace some
    events that satisfy [P], the local variables being as before. *)
Definition adds {A} (P : list Event -> Prop) (c : M A) : Prop :=
  forall w, exists es r, c w = (extend es w, r) /\ P es.

(** ** A driver stub *)

Definition stub_device : DeviceInfo :=
  {| model := "SP-200"; NumberOfChannels := 2 |}.

Definition stub_channel (st : string) : ChannelInfo :=
  {| state := st; board := "B1"; amplifier := "none"; NbAmps := 0;
     min_IRange := "I_RANGE_100pA"; max_IRange := "I_RANGE_1A" |}.

(** The lock is free; a sleep of less than 9000000000 seconds is taken, a
    longer one is refused, by the system call up to 9223372036 seconds and
    by the conversion of the length beyond that; [Connect] raises on its
    first [failures] calls and succeeds from then on; the channel is in the
    state [st]; every other call succeeds; a payload is handed on as it
    is. *)
Definition stub (failures : nat) (st : string) : Env :=
  {| lock_acquire := fun _ _ => Ok tt;
     os_sleep := fun _ seconds =>
       if decide (seconds < 9000000000) then Ok tt
       else if decide (seconds <= 9223372036) then Raise (OSError 22)
       else Raise (OverflowError "timestamp too large to convert to C _PyTime_t");
     GetLibVersion := fun _ => Ok "9.0";
     Connect := fun h _ =>
       if decide (count is_connect h < failures)%nat
       then Raise (ApiError (-1)) else Ok (1, stub_device);
     Disconnect := fun _ _ => Ok tt;
     GetChannelInfo := fun _ _ _ => Ok (stub_channel st);
     GetData := fun _ _ _ => Ok [];
     LoadTechnique := fun _ _ _ _ _ _ _ _ => Ok tt;
     StartChannel := fun _ _ _ => Ok tt;
     StopChannel := fun _ _ _ => Ok tt;
     clock := fun h => Z.of_nat (length h);
     payload_to_ecc := fun payload _ => Ok payload;
     get_kbio_techpath := fun dllpath techname model => dllpath +:+ techname +:+ ".ecc";
     parse_raw_data := fun data _ =>
       Ok {| data_rows := Z.of_nat (length data); data_points := data |} |}.

Definition world0 : World := {| trace := []; locals := no_locals |}.

End Biologic.

Module Cli.

(** ** Data exchanged with the daemon *)

(** The state of a pipeline that the commands read ([tomato.models.Pipeline]). *)
Record Pipeline := {
  sampleid : option string;
  ready : bool;
  jobid : option Z
}.

Inductive PyVal : Type :=
| PyNone
| PyBool (b : bool)
| PyStr (s : string).

(** The requests that the embedded commands send with [send_pyobj]. *)
Inductive Request : Type :=
| CmdStatus                                                  (* dict(cmd="status") *)
| CmdPipeline (pipeline : string) (params : gmap string PyVal).
                               (* dict(cmd="pipeline", pipeline=pipeline, params=params) *)

Inductive Data : Type :=
| NoData
| DaemonData (pipelines : gmap string Pipeline)   (* an object with a pipelines attribute *)
| PipelinesData (pipelines : gmap string Pipeline)
| PipelineData (pip : Pipeline).

Record Reply := {
  success : bool;
  msg : string;
  data : Data
}.

(** What is behind the port, and the requests sent so far: [daemon] is
    [None] when no daemon answers, otherwise the pipelines of the daemon,
    which answers each request before the client stops waiting for it. *)
Record Net := {
  daemon : option (gmap string Pipeline);
  sent : list Request
}.

(** Modelled from the spec: the daemon's handling of the [pipeline] command;
    the daemon is not among the embedded sources.  The parameter set
    [{sampleid?, ready?}] overwrites the fields it names, and the [jobid] is
    left alone. *)
Definition apply_params (params : gmap string PyVal) (pip : Pipeline) : Pipeline :=
  {| sampleid := match params !! "sampleid" with
                 | Some (PyStr s) => Some s
                 | Some PyNone => None
                 | _ => sampleid pip
                 end;
     ready := match params !! "ready" with
              | Some (PyBool b) => b
              | _ => ready pip
              end;
     jobid := jobid pip |}.

(** Modelled from the spec: the daemon's reply to a request and its
    pipelines afterwards.  [status] replies with the full pipeline map and
    changes nothing; [pipeline] replies with the updated pipeline record. *)
Definition daemon_handle (req : Request) (pipelines : gmap string Pipeline)
    : gmap string Pipeline * Reply :=
  match req with
  | CmdStatus =>
      (pipelines, {| success := true; msg := "running"; data := DaemonData pipelines |})
  | CmdPipeline name params =>
      match pipelines !! name with
      | Some pip =>
          let pip' := apply_params params pip in
          (<[name := pip']> pipelines,
           {| success := true; msg := "pipeline"; data := PipelineData pip' |})
      | None =>
          (pipelines, {| success := false; msg := "pipeline not found"; data := NoData |})
      end
  end.

(** [req.send_pyobj(request)] followed by the arrival of the reply, if any. *)
Definition send_recv (request : Request) (net : Net) : Net * option Reply :=
  match daemon net with
  | Some pipelines =>
      let (pipelines', rep) := daemon_handle request pipelines in
      ({| daemon := Some pipelines'; sent := sent net ++ [request] |}, Some rep)
  | None => ({| daemon := None; sent := sent net ++ [request] |}, None)
  end.

(** ** [status] (tomato/__init__.py, lines 101-129)

    [status] and the commands return a reply, [Some rep], unless they raise
    or wait for an answer that does not come, [None].

    [req.connect] (line 110) refuses an endpoint whose port is not written
    with a digit first, which for an int is a negative one: it raises
    [zmq.error.ZMQError] before anything is sent.  [poller.poll(timeout)]
    (line 115) waits [timeout] milliseconds for the reply, and without end
    when [timeout] is negative. *)
Definition status (port timeout : Z) (net : Net) : Net * option Reply :=
  if decide (port < 0) then (net, None)
  else
    match send_recv CmdStatus net with
    | (net', Some rep) =>
        (net', Some {| success := true;
                       msg := "tomato running on port " +:+ pretty port;
                       data := data rep |})
    | (net', None) =>
        if decide (timeout < 0) then (net', None)
        else
          (net', Some {| success := false;
                         msg := "tomato not running on port " +:+ pretty port;
                         data := NoData |})
    end.

(** ** [pipeline_eject] (tomato/__init__.py, lines 317-364) *)
Definition pipeline_eject (port timeout : Z) (pipeline : string) (net : Net)
    : Net * option Reply :=
  match status port timeout net with
  | (net1, None) => (net1, None)
  | (net1, Some stat) =>
      if negb (success stat) then (net1, Some stat)
      else
        match data stat with
        | DaemonData pipelines =>
            match pipelines !! pipeline with
            | None =>
                (net1, Some {| success := false;
                               msg := "pipeline " +:+ pipeline +:+ " not found on tomato";
                               data := PipelinesData pipelines |})
            | Some pip =>
                if decide (sampleid pip = None) then
                  (net1, Some {| success := true;
                                 msg := "pipeline " +:+ pipeline +:+ " was already empty";
                                 data := PipelineData pip |})
                else if decide (jobid pip = None) then
                  match send_recv
                          (CmdPipeline pipeline
                             {[ "sampleid" := PyNone; "ready" := PyBool false ]})
                          net1 with
                  | (net2, Some rep) =>
                      (net2, Some {| success := true;
                                     msg := "pipeline " +:+ pipeline +:+ " ejected succesffully";
                                     data := data rep |})
                  | (net2, None) => (net2, None)
                  end
                else
                  (net1, Some {| success := false;
                                 msg := "cannot eject from a running pipeline";
                                 data := PipelineData pip |})
            end
        | _ => (net1, None)
        end
  end.

(** ** [pipeline_ready] (tomato/__init__.py, lines 367-410) *)
Definition pipeline_ready (port timeout : Z) (pipeline : string) (net : Net)
    : Net * option Reply :=
  match status port timeout net with
  | (net1, None) => (net1, None)
  | (net1, Some stat) =>
      if negb (success stat) then (net1, Some stat)
      else
        match data stat with
        | DaemonData pipelines =>
            match pipelines !! pipeline with
            | None =>
                (net1, Some {| success := false;
                               msg := "pipeline " +:+ pipeline +:+ " not found on tomato";
                               data := PipelinesData pipelines |})
            | Some pip =>
                if ready pip then
                  (net1, Some {| success := true;
                                 msg := "pipeline " +:+ pipeline +:+ " was already ready";
                                 data := PipelineData pip |})
                else if decide (jobid pip = None) then
                  match send_recv (CmdPipeline pipeline {[ "ready" := PyBool true ]}) net1 with
                  | (net2, Some rep) =>
                      (net2, Some {| success := true;
                                     msg := "pipeline " +:+ pipeline +:+ " set as ready";
                                     data := data rep |})
                  | (net2, None) => (net2, None)
                  end
                else
                  (net1, Some {| success := false;
                                 msg := "cannot mark a running pipeline as ready";
                                 data := PipelineData pip |})
            end
        | _ => (net1, None)
        end
  end.

(** A net on which a daemon with the given pipelines answers. *)
Definition running (pipelines : gmap string Pipeline) : Net :=
  {| daemon := Some pipelines; sent := [] |}.

(** ** Pipelines to try the commands on *)

Definition busy_pipeline : Pipeline :=
  {| sampleid := Some "LNO-01"; ready := true; jobid := Some 7 |}.
Definition busy_unready_pipeline : Pipeline :=
  {| sampleid := Some "LNO-02"; ready := false; jobid := Some 8 |}.
Definition busy_empty_pipeline : Pipeline :=
  {| sampleid := None; ready := true; jobid := Some 9 |}.
Definition loaded_pipeline : Pipeline :=
  {| sampleid := Some "LNO-03"; ready := true; jobid := None |}.
Definition empty_pipeline : Pipeline :=
  {| sampleid := None; ready := false; jobid := None |}.

Definition example_pipelines : gmap string Pipeline :=
  {[ "cell-01" := busy_pipeline; "cell-02" := busy_unready_pipeline;
     "cell-03" := busy_empty_pipeline; "cell-04" := loaded_pipeline;
     "cell-05" := empty_pipeline ]}.

End Cli.

(** * The rest of the command line client *)

Module Tomato.
Import Cli.

(** ** Outcomes *)

(** The exceptions of the functions below. *)
Inductive Error : Type :=
| AssertionError               (* an assert statement whose condition is false *)
| KeyError (key : Z)           (* a dictionary without the key *)
| UnboundLocal (var : string). (* a local variable read before assignment *)

Inductive Outcome (A : Type) : Type :=
| Returns (a : A)
| Raises (e : Error).
Arguments Returns {A} a.
Arguments Raises {A} e.

(** ** [set_loglevel] (tomato/__init__.py, lines 48-51) *)

(** [logging._levelToName], as the logging module sets it up. *)
Definition levelToName : gmap Z string :=
  {[ 50 := "CRITICAL"; 40 := "ERROR"; 30 := "WARNING"; 20 := "INFO";
     10 := "DEBUG"; 0 := "NOTSET" ]}.

(** The function returns nothing; the level it hands to
    [logging.basicConfig] stands for its effect. *)
Definition set_loglevel (delta : Z) : Outcome Z :=
  let loglevel := Z.min (Z.max (30 - 10 * delta) 10) 50 in
  match levelToName !! loglevel with
  | Some name => Returns loglevel
  | None => Raises (KeyError loglevel)
  end.

(** ** [get_pipelines] (tomato/__init__.py, lines 54-98)

    The part after the settings have been read: [devices] is
    [jsdata["devices"]] and [pipelines] is [jsdata["pipelines"]], with the
    entries that the function reads typed as the devices file has them.
    The [assert] statements are executed, as they are unless Python runs
    with [-O]. *)

Inductive Value : Type :=
| VInt (z : Z)
| VStr (s : string)
| VBool (b : bool)
| VInts (zs : list Z)
| VStrs (ss : list string).

(** An entry of [devices]: its name, its channels, and its other keys. *)
Record Device := {
  d_name : string;
  d_channels : list Z;
  d_other : gmap string Value
}.

(** An entry of a pipeline's [devices]; [b_channel] is [ppars.get("channel")]
    when that is an int. *)
Record Binding := {
  b_name : string;
  b_tag : string;
  b_channel : option Z
}.

Record PipelineConf := {
  p_name : string;
  p_devices : list Binding
}.

(** An entry of the result: [{"name": ..., "devices": [...]}]. *)
Record PipelineOut := {
  o_name : string;
  o_devices : list (gmap string Value)
}.

(** [c in s] for a one-character [c], and [s.replace(c, r)]. *)
Fixpoint contains (c : Ascii.ascii) (s : string) : bool :=
  match s with
  | EmptyString => false
  | String a s' => if decide (a = c) then true else contains c s'
  end.

Fixpoint replace (c : Ascii.ascii) (r : string) (s : string) : string :=
  match s with
  | EmptyString => EmptyString
  | String a s' =>
      if decide (a = c) then r +:+ replace c r s' else String a (replace c r s')
  end.

Definition star : Ascii.ascii :=
  match "*" with String c _ => c | EmptyString => Ascii.zero end.

(** The number of times that [c] occurs in [s]. *)
Fixpoint occurrences (c : Ascii.ascii) (s : string) : nat :=
  match s with
  | EmptyString => 0
  | String a s' => (if decide (a = c) then 1 else 0) + occurrences c s'
  end.

(** Lines 72-74 and 86-88: the loop that looks for the device of a binding
    and breaks at the first device with its name.  [dpars] is the loop
    variable, which keeps its last value when the loop ends without a
    [break]. *)
Fixpoint find_device (devices : list Device) (name : string) (dpars : option Device)
    : option Device :=
  match devices with
  | [] => dpars
  | d :: rest =>
      if decide (d_name d = name) then Some d else find_device rest name (Some d)
  end.

Definition device_dict (dpars : Device) : gmap string Value :=
  <["channels" := VInts (d_channels dpars)]>
    (<["name" := VStr (d_name dpars)]> (d_other dpars)).

(** Lines 75-76 and 89-90: the device without its channels, with the tag. *)
Definition tagged_device (dpars : Device) (tag : string) : gmap string Value :=
  <["tag" := VStr tag]> (delete "channels" (device_dict dpars)).

(** Lines 69-82: a pipeline whose name has a ["*"]. *)
Definition expand_wildcard (devices : list Device) (pip : PipelineConf)
    : Outcome (list PipelineOut) :=
  match p_devices pip with
  | [ppars] =>
      match find_device devices (b_name ppars) None with
      | None => Raises (UnboundLocal "dpars")
      | Some dpars =>
          let dev := tagged_device dpars (b_tag ppars) in
          Returns
            (map (fun ch =>
                    {| o_name := replace star (pretty ch) (p_name pip);
                       o_devices := [<["channel" := VInt ch]> dev] |})
                 (d_channels dpars))
      end
  | _ => Raises AssertionError
  end.

(** Lines 85-96: the bindings of a pipeline whose name has no ["*"];
    [data_devices] is [data["devices"]]. *)
Fixpoint bind_devices (devices : list Device) (name : string)
    (bindings : list Binding) (data_devices : list (gmap string Value))
    : Outcome (list (gmap string Value)) :=
  match bindings with
  | [] => Returns data_devices
  | ppars :: rest =>
      match find_device devices (b_name ppars) None with
      | None => Raises (UnboundLocal "dpars")
      | Some dpars =>
          let dev := tagged_device dpars (b_tag ppars) in
          match b_channel ppars with
          | Some ch =>
              if decide (ch ∈ d_channels dpars)
              then bind_devices devices name rest
                     (data_devices ++ [<["channel" := VInt ch]> dev])
              else Raises AssertionError
          | None =>
              if contains star name
              then bind_devices devices name rest (data_devices ++ [dev])
              else Raises AssertionError
          end
      end
  end.

(** Lines 66-98: the loop over [pipelines], with the list [ret] it fills. *)
Fixpoint get_pipelines_loop (devices : list Device) (pipelines : list PipelineConf)
    (ret : list PipelineOut) : Outcome (list PipelineOut) :=
  match pipelines with
  | [] => Returns ret
  | pip :: rest =>
      if contains star (p_name pip) then
        match expand_wildcard devices pip with
        | Returns outs => get_pipelines_loop devices rest (ret ++ outs)
        | Raises e => Raises e
        end
      else
        match bind_devices devices (p_name pip) (p_devices pip) [] with
        | Returns devs =>
            get_pipelines_loop devices rest
              (ret ++ [{| o_name := p_name pip; o_devices := devs |}])
        | Raises e => Raises e
        end
  end.

Definition get_pipelines (devices : list Device) (pipelines : list PipelineConf)
    : Outcome (list PipelineOut) :=
  get_pipelines_loop devices pipelines [].

(** The entry that lines 89-96 add to [data["devices"]] for a binding whose
    channel is an int and is among the channels of the device found. *)
Definition bound_device (devices : list Device) (ppars : Binding)
    (dev : gmap string Value) : Prop :=
  exists dpars ch,
    find_device devices (b_name ppars) None = Some dpars /\
    b_channel ppars = Some ch /\
    ch ∈ d_channels dpars /\
    dev = <["channel" := VInt ch]> (tagged_device dpars (b_tag ppars)).

(** A binding without an int channel, or whose channel the device found
    does not have. *)
Definition unbound_device (devices : list Device) (ppars : Binding) : Prop :=
  match b_channel ppars with
  | None => True
  | Some ch =>
      forall dpars, find_device devices (b_name ppars) None = Some dpars ->
                    ch ∉ d_channels dpars
  end.

(** A device entry of a pipeline that [get_pipelines] returns, as the keys
    of the dictionary show it: under "name" the name of a device of the
    settings, under "channel" one of the channels of that device, a "tag",
    and no "channels". *)
Definition device_entry (devices : list Device) (dev : gmap string Value) : Prop :=
  exists (dpars : Device) (tag : string) (ch : Z),
    dpars ∈ devices /\
    ch ∈ d_channels dpars /\
    dev !! "name" = Some (VStr (d_name dpars)) /\
    dev !! "channel" = Some (VInt ch) /\
    dev !! "tag" = Some (VStr tag) /\
    dev !! "channels" = None.

(** ** [pipeline_load] (tomato/__init__.py, lines 277-314) *)
Definition pipeline_load (port timeout : Z) (pipeline sample : string) (net : Net)
    : Net * option Reply :=
  match status port timeout net with
  | (net1, None) => (net1, None)
  | (net1, Some stat) =>
      if negb (success stat) then (net1, Some stat)
      else
        match data stat with
        | DaemonData pipelines =>
            match pipelines !! pipeline with
            | None =>
                (net1, Some {| success := false;
                               msg := "pipeline " +:+ pipeline +:+ " not found on tomato";
                               data := NoData |})
            | Some pip =>
                if decide (sampleid pip = None) then
                  match send_recv (CmdPipeline pipeline {[ "sampleid" := PyStr sample ]})
                          net1 with
                  | (net2, Some rep) =>
                      (net2, Some {| success := true;
                                     msg := "loaded " +:+ sample +:+ " into " +:+ pipeline;
                                     data := data rep |})
                  | (net2, None) => (net2, None)
                  end
                else
                  (net1, Some {| success := false;
                                 msg := "pipeline " +:+ pipeline +:+ " is not empty, aborting";
                                 data := PipelineData pip |})
            end
        | _ => (net1, None)
        end
  end.

(** ** Sequences of pipeline commands *)

Inductive Command : Type :=
| Load (pipeline sample : string)
| Eject (pipeline : string)
| Ready (pipeline : string).

Definition run_command (port timeout : Z) (c : Command) (net : Net)
    : Net * option Reply :=
  match c with
  | Load pipeline sample => pipeline_load port timeout pipeline sample net
  | Eject pipeline => pipeline_eject port timeout pipeline net
  | Ready pipeline => pipeline_ready port timeout pipeline net
  end.

Fixpoint run_commands (port timeout : Z) (cs : list Command) (net : Net) : Net :=
  match cs with
  | [] => net
  | c :: rest => run_commands port timeout rest (fst (run_command port timeout c net))
  end.

(** The net after a command that has sent the status query only, and after
    one that has gone on to send a [pipeline] command. *)
Definition status_only (net : Net) : Net :=
  {| daemon := daemon net; sent := sent net ++ [CmdStatus] |}.

Definition mutated (net : Net) (pipelines : gmap string Pipeline) (pipeline : string)
    (params : gmap string PyVal) (pip : Pipeline) : Net :=
  {| daemon := Some (<[pipeline := apply_params params pip]> pipelines);
     sent := sent net ++ [CmdStatus; CmdPipeline pipeline params] |}.

(** The pipeline that a command names. *)
Definition target (c : Command) : string :=
  match c with
  | Load pipeline _ | Eject pipeline | Ready pipeline => pipeline
  end.

(** The invariant of the pipelines: one with a job is ready and loaded. *)
Definition consistent (pip : Pipeline) : Prop :=
  jobid pip <> None -> ready pip = true /\ sampleid pip <> None.

(** ** Settings to try [get_pipelines] on *)

Definition counter_device : Device :=
  {| d_name := "dev-counter"; d_channels := [5; 10];
     d_other := {[ "address" := VStr "localhost"; "driver" := VStr "counter" ]} |}.

Definition biologic_device : Device :=
  {| d_name := "MPG2-1"; d_channels := [1; 2; 3];
     d_other := {[ "address" := VStr "10.0.0.1"; "driver" := VStr "biologic" ]} |}.

Definition example_devices : list Device := [counter_device; biologic_device].

Definition worker_binding : Binding :=
  {| b_name := "MPG2-1"; b_tag := "worker"; b_channel := None |}.

Definition counter_binding : Binding :=
  {| b_name := "dev-counter"; b_tag := "counter"; b_channel := Some 5 |}.

Definition wildcard_pipeline : PipelineConf :=
  {| p_name := "MPG2-1-*"; p_devices := [worker_binding] |}.

Definition fixed_pipeline : PipelineConf :=
  {| p_name := "dummy-5"; p_devices := [counter_binding] |}.

(** A pipeline without ["*"] whose binding has no channel. *)
Definition unbound_pipeline : PipelineConf :=
  {| p_name := "dummy"; p_devices := [worker_binding] |}.

(** A pipeline with a ["*"] and no device. *)
Definition empty_wildcard_pipeline : PipelineConf :=
  {| p_name := "cell-*"; p_devices := [] |}.

End Tomato.

(** * The entry points (src/tomato/__init__.py) *)

Module Entry.
Import Tomato.

(** ** [set_loglevel] (lines 28-30) *)
Definition set_loglevel (loglevel : Z) : Outcome Z :=
  match levelToName !! loglevel with
  | Some name => Returns loglevel
  | None => Raises (KeyError loglevel)
  end.

(** ** [run_tomato], lines 134-135: the log level from the counts of the
    [--verbose] and [--quiet] flags. *)
Definition run_tomato_loglevel (verbose quiet : Z) : Outcome Z :=
  let verbosity := Z.min (Z.max ((2 + verbose - quiet) * 10) 10) 50 in
  set_loglevel verbosity.

(** ** [run_ketchup], lines 259-260. *)
Definition run_ketchup_loglevel (verbose quiet : Z) : Outcome Z :=
  let verbosity := verbose - quiet in
  set_loglevel verbosity.

End Entry.

Module BiologicProofs.
Import Biologic.

(** ** Worlds that grow *)

Lemma extend_nil w : extend [] w = w.
Proof. destruct w as [tr l]. unfold extend. simpl. by rewrite app_nil_r. Qed.

Lemma extend_extend es1 es2 w : extend es2 (extend es1 w) = extend (es1 ++ es2) w.
Proof. unfold extend. simpl. by rewrite app_assoc. Qed.

Lemma record_event_extend e w : record_event e w = extend [e] w.
Proof. reflexivity. Qed.

Lemma new_events_extend {A} (c : M A) w es r :
  c w = (extend es w, r) -> new_events c w = es.
Proof.
  intros Hc. unfold new_events. rewrite Hc. simpl.
  by rewrite drop_app_length.
Qed.

Lemma length_range n : length (range n) = Z.to_nat n.
Proof. unfold range. by rewrite length_map, length_seq. Qed.

Lemma count_app p es1 es2 : count p (es1 ++ es2) = (count p es1 + count p es2)%nat.
Proof. unfold count. by rewrite filter_app, length_app. Qed.

(** ** The attempts of [safe_api_connect] *)

Lemma count_nil p : count p [] = 0%nat.
Proof. reflexivity. Qed.

Lemma count_cons p e es :
  count p (e :: es) = ((if p e then 1 else 0) + count p es)%nat.
Proof.
  unfold count. rewrite filter_cons.
  destruct (p e); [rewrite decide_True by done|rewrite decide_False by done];
    reflexivity.
Qed.

Lemma trace_extend es w : trace (extend es w) = trace w ++ es.
Proof. reflexivity. Qed.

Lemma sleep_sleeps E seconds w :
  sleeps E seconds -> sleep E seconds w = (extend [EvSleep seconds] w, Ok tt).
Proof.
  intros [Hpos Hsleep]. unfold sleep.
  destruct (decide (seconds < 0)) as [Hneg|_]; [lia|].
  by rewrite Hsleep.
Qed.

Section Connect.

Variable E : Env.
Variables (address lockpath : string) (time_sleep : Z).
Hypothesis sleep_ok : sleeps E time_sleep.

(** After any history the environment lets the attempt fail or succeed. *)
Lemma connect_answer (h : list Event) :
  (exists es, connect_fails E address lockpath h es) \/
  (exists conn, connect_succeeds E address lockpath h conn).
Proof.
  destruct (lock_acquire E h lockpath) as [[]|e] eqn:Hlock.
  - destruct (Connect E (h ++ [EvAcquire lockpath]) address) as [conn|e] eqn:Hconn.
    + right. by exists conn.
    + left. eexists. by apply (connect_fails_api _ _ _ _ e).
  - left. eexists. by apply (connect_fails_lock _ _ _ _ e).
Qed.

Lemma connect_attempt_fails w es :
  connect_fails E address lockpath (trace w) es ->
  connect_attempt E address lockpath time_sleep w
  = (extend (es ++ [EvSleep time_sleep]) w, Ok None).
Proof.
  intros Hfails.
  unfold connect_attempt, try_except, with_FileLock, bind, log,
    api_Connect, interact, return_, next_item, ret.
  destruct Hfails as [e Hlock|e Hlock Hconn]; simpl; rewrite Hlock; simpl.
  - rewrite (sleep_sleeps _ _ _ sleep_ok).
    by rewrite !record_event_extend, !extend_extend.
  - rewrite Hconn. simpl. rewrite (sleep_sleeps _ _ _ sleep_ok).
    by rewrite !record_event_extend, !extend_extend.
Qed.

Lemma connect_attempt_succeeds w conn :
  connect_succeeds E address lockpath (trace w) conn ->
  connect_attempt E address lockpath time_sleep w
  = (extend (connect_success address lockpath conn) w, Ok (Some conn)).
Proof.
  intros [Hlock Hconn].
  unfold connect_attempt, try_except, with_FileLock, bind, log,
    api_Connect, interact, return_, next_item, ret.
  simpl. rewrite Hlock. simpl. rewrite Hconn. simpl.
  by rewrite !record_event_extend, !extend_extend.
Qed.

(** The loop, when the environment lets [k] attempts fail and the next one
    succeed, and the loop has more than [k] passes. *)
Lemma connect_loop_success (xs : list Z) (k : nat) :
  forall w es conn,
    (k < length xs)%nat ->
    failed_attempts E address lockpath time_sleep (trace w) k es ->
    connect_succeeds E address lockpath (trace w ++ es) conn ->
    for_in xs (fun _ => connect_attempt E address lockpath time_sleep) w
    = (extend (es ++ connect_success address lockpath conn) w, Ok (Some conn)).
Proof.
  revert k. induction xs as [|x xs IH]; intros k w es conn Hk Hfailed Hconn;
    [simpl in Hk; lia|].
  simpl. unfold bind.
  inversion Hfailed as [h|h es1 n rest Hfails Hrest]; subst.
  - rewrite app_nil_r in Hconn.
    by rewrite (connect_attempt_succeeds _ _ Hconn).
  - rewrite (connect_attempt_fails _ _ Hfails).
    rewrite (IH n (extend (es1 ++ [EvSleep time_sleep]) w) rest conn).
    + rewrite extend_extend. by rewrite <- !app_assoc.
    + simpl in Hk. lia.
    + exact Hrest.
    + rewrite trace_extend. by rewrite <- !app_assoc.
Qed.

(** The loop, when the environment lets as many attempts fail as the loop
    has passes. *)
Lemma connect_loop_exhausted (xs : list Z) :
  forall w es,
    failed_attempts E address lockpath time_sleep (trace w) (length xs) es ->
    for_in xs (fun _ => connect_attempt E address lockpath time_sleep) w
    = (extend es w, Ok None).
Proof.
  induction xs as [|x xs IH]; intros w es Hfailed;
    inversion Hfailed as [h|h es1 n rest Hfails Hrest]; subst.
  - simpl. unfold ret. by rewrite extend_nil.
  - simpl. unfold bind. rewrite (connect_attempt_fails _ _ Hfails).
    rewrite (IH (extend (es1 ++ [EvSleep time_sleep]) w) rest Hrest).
    rewrite extend_extend. by rewrite <- !app_assoc.
Qed.

(** One of the two is the case. *)
Lemma failed_attempts_total (n : nat) :
  forall h, exists k es,
    failed_attempts E address lockpath time_sleep h k es /\
    (((k < n)%nat /\ exists conn, connect_succeeds E address lockpath (h ++ es) conn) \/
     k = n).
Proof.
  induction n as [|n IH]; intros h.
  - exists 0%nat, []. split; [constructor|by right].
  - destruct (connect_answer h) as [[es Hfails]|[conn Hconn]].
    + destruct (IH (h ++ es ++ [EvSleep time_sleep])) as (k & rest & Hrest & Hend).
      exists (S k), (es ++ EvSleep time_sleep :: rest).
      split; [by constructor|].
      destruct Hend as [[Hk [conn Hconn]]| ->]; [left|by right].
      split; [lia|]. exists conn.
      by rewrite <- !app_assoc in Hconn.
    + exists 0%nat, []. split; [constructor|left].
      split; [lia|]. exists conn. by rewrite app_nil_r.
Qed.

Lemma connect_fails_count h es :
  connect_fails E address lockpath h es ->
  count (is_attempt lockpath) es = 1%nat /\ (count is_connect es <= 1)%nat.
Proof.
  intros [e Hlock|e Hlock Hconn]; rewrite !count_cons, !count_nil; simpl;
    rewrite bool_decide_true by done; split; lia.
Qed.

Lemma failed_attempts_count h k es :
  failed_attempts E address lockpath time_sleep h k es ->
  count (is_attempt lockpath) es = k /\ (count is_connect es <= k)%nat.
Proof.
  induction 1 as [h|h es n rest Hfails Hrest [IH1 IH2]].
  - by split.
  - destruct (connect_fails_count _ _ Hfails) as [H1 H2].
    rewrite !count_app, !count_cons. simpl. split; lia.
Qed.

Lemma connect_success_count conn :
  count (is_attempt lockpath) (connect_success address lockpath conn) = 1%nat /\
  count is_connect (connect_success address lockpath conn) = 1%nat.
Proof.
  unfold connect_success. rewrite !count_cons, !count_nil. simpl.
  by rewrite bool_decide_true.
Qed.

End Connect.

(** C1.  For every retry count [retries >= 1] and every sleep length that
    [time.sleep] takes, what [safe_api_connect] does is fixed by the answers
    of the lock and of [api.Connect]:
    - when they let the first [k] attempts fail, [k < retries], and the next
      one succeed, it returns the [(id_, device_info)] that [api.Connect]
      answered in that attempt, at once: it has made [k + 1] attempts, each
      of the failed ones followed by a sleep of [time_sleep] seconds;
    - when they let [retries] attempts fail, it raises the exception
      [Exception("Failed to connect after {retries} retries")], which is the
      connection error of the driver, after exactly [retries] attempts;
    - one of the two is the case; and
    - [api.Connect] is called at most once in each attempt, and there are at
      most [retries] attempts. *)
Theorem safe_api_connect_retry (E : Env) (address lockpath : string)
    (retries time_sleep : Z) (w : World) :
  1 <= retries ->
  sleeps E time_sleep ->
  (forall (k : nat) (es : list Event) (conn : Z * DeviceInfo),
     Z.of_nat k < retries ->
     failed_attempts E address lockpath time_sleep (trace w) k es ->
     connect_succeeds E address lockpath (trace w ++ es) conn ->
     safe_api_connect E address lockpath retries time_sleep w
     = (extend (es ++ connect_success address lockpath conn) w, Ok conn) /\
     count (is_attempt lockpath)
       (new_events (safe_api_connect E address lockpath retries time_sleep) w)
     = S k) /\
  (forall es : list Event,
     failed_attempts E address lockpath time_sleep (trace w) (Z.to_nat retries) es ->
     safe_api_connect E address lockpath retries time_sleep w
     = (extend es w,
        Raise (Exception ("Failed to connect after " +:+ pretty retries +:+ " retries"))) /\
     count (is_attempt lockpath)
       (new_events (safe_api_connect E address lockpath retries time_sleep) w)
     = Z.to_nat retries) /\
  (exists (k : nat) (es : list Event),
     failed_attempts E address lockpath time_sleep (trace w) k es /\
     ((Z.of_nat k < retries /\
       exists conn, connect_succeeds E address lockpath (trace w ++ es) conn) \/
      k = Z.to_nat retries)) /\
  (count is_connect
     (new_events (safe_api_connect E address lockpath retries time_sleep) w)
   <= count (is_attempt lockpath)
        (new_events (safe_api_connect E address lockpath retries time_sleep) w)
   <= Z.to_nat retries)%nat.
Proof.
  intros Hr Hs.
  assert (Hsuccess : forall (k : nat) es conn,
    Z.of_nat k < retries ->
    failed_attempts E address lockpath time_sleep (trace w) k es ->
    connect_succeeds E address lockpath (trace w ++ es) conn ->
    safe_api_connect E address lockpath retries time_sleep w
    = (extend (es ++ connect_success address lockpath conn) w, Ok conn)).
  { intros k es conn Hk Hfailed Hconn.
    unfold safe_api_connect, bind, log, ret.
    rewrite (connect_loop_success E address lockpath time_sleep Hs (range retries) k
               w es conn); [reflexivity| |done..].
    rewrite length_range. lia. }
  assert (Hexhausted : forall es,
    failed_attempts E address lockpath time_sleep (trace w) (Z.to_nat retries) es ->
    safe_api_connect E address lockpath retries time_sleep w
    = (extend es w,
       Raise (Exception ("Failed to connect after " +:+ pretty retries +:+ " retries")))).
  { intros es Hfailed.
    unfold safe_api_connect, bind, log, ret.
    rewrite (connect_loop_exhausted E address lockpath time_sleep Hs (range retries) w es);
      [reflexivity|].
    by rewrite length_range. }
  pose proof (failed_attempts_total E address lockpath time_sleep (Z.to_nat retries)
                (trace w)) as Htotal.
  split; [|split; [|split]].
  - intros k es conn Hk Hfailed Hconn.
    pose proof (Hsuccess k es conn Hk Hfailed Hconn) as Hrun.
    split; [exact Hrun|].
    rewrite (new_events_extend _ _ _ _ Hrun), count_app.
    destruct (failed_attempts_count _ _ _ _ _ _ _ Hfailed) as [-> _].
    destruct (connect_success_count address lockpath conn) as [-> _]. lia.
  - intros es Hfailed.
    pose proof (Hexhausted es Hfailed) as Hrun.
    split; [exact Hrun|].
    rewrite (new_events_extend _ _ _ _ Hrun).
    by destruct (failed_attempts_count _ _ _ _ _ _ _ Hfailed) as [-> _].
  - destruct Htotal as (k & es & Hfailed & Hend).
    exists k, es. split; [exact Hfailed|].
    destruct Hend as [[Hk Hconn]| ->]; [left|by right].
    split; [lia|exact Hconn].
  - destruct Htotal as (k & es & Hfailed & Hend).
    destruct (failed_attempts_count _ _ _ _ _ _ _ Hfailed) as [Hattempts Hconnects].
    destruct Hend as [[Hk [conn Hconn]]| ->].
    + assert (Hk' : Z.of_nat k < retries) by lia.
      rewrite (new_events_extend _ _ _ _ (Hsuccess k es conn Hk' Hfailed Hconn)).
      rewrite !count_app.
      destruct (connect_success_count address lockpath conn) as [-> ->]. lia.
    + rewrite (new_events_extend _ _ _ _ (Hexhausted es Hfailed)). lia.
Qed.

(** The stub that fails twice before it succeeds, with [retries = 3]: three
    attempts, and the connection of the third is returned.  The stub that
    fails three times: the exception after three attempts. *)
Lemma safe_api_connect_retry_witness :
  1 <= 3 /\
  sleeps (stub 2 "STOP") 10 /\
  (safe_api_connect (stub 2 "STOP") "10.0.0.1" "dev.lock" 3 10 world0
   = (extend
        [EvAcquire "dev.lock"; EvConnect "10.0.0.1" (Raise (ApiError (-1)));
         EvRelease "dev.lock"; EvSleep 10;
         EvAcquire "dev.lock"; EvConnect "10.0.0.1" (Raise (ApiError (-1)));
         EvRelease "dev.lock"; EvSleep 10;
         EvAcquire "dev.lock"; EvConnect "10.0.0.1" (Ok (1, stub_device));
         EvRelease "dev.lock"]
        world0,
      Ok (1, stub_device)) /\
   count (is_attempt "dev.lock")
     (new_events (safe_api_connect (stub 2 "STOP") "10.0.0.1" "dev.lock" 3 10) world0)
   = 3%nat) /\
  (safe_api_connect (stub 3 "STOP") "10.0.0.1" "dev.lock" 3 10 world0
   = (extend
        [EvAcquire "dev.lock"; EvConnect "10.0.0.1" (Raise (ApiError (-1)));
         EvRelease "dev.lock"; EvSleep 10;
         EvAcquire "dev.lock"; EvConnect "10.0.0.1" (Raise (ApiError (-1)));
         EvRelease "dev.lock"; EvSleep 10;
         EvAcquire "dev.lock"; EvConnect "10.0.0.1" (Raise (ApiError (-1)));
         EvRelease "dev.lock"; EvSleep 10]
        world0,
      Raise (Exception ("Failed to connect after " +:+ pretty 3 +:+ " retries"))) /\
   count (is_attempt "dev.lock")
     (new_events (safe_api_connect (stub 3 "STOP") "10.0.0.1" "dev.lock" 3 10) world0)
   = Z.to_nat 3).
Proof.
  assert (Hr : 1 <= 3) by lia.
  assert (Hs : forall n, sleeps (stub n "STOP") 10).
  { intros n. split; [lia|]. intros h. reflexivity. }
  assert (Hfails : forall n h,
    (count is_connect (h ++ [EvAcquire "dev.lock"]) < n)%nat ->
    connect_fails (stub n "STOP") "10.0.0.1" "dev.lock" h
      [EvAcquire "dev.lock"; EvConnect "10.0.0.1" (Raise (ApiError (-1)));
       EvRelease "dev.lock"]).
  { intros n h Hn. apply (connect_fails_api _ _ _ _ (ApiError (-1))); [reflexivity|].
    simpl. by rewrite decide_True. }
  split; [exact Hr|]. split; [exact (Hs 2%nat)|]. split.
  - apply (proj1 (safe_api_connect_retry (stub 2 "STOP") "10.0.0.1" "dev.lock" 3 10
                    world0 Hr (Hs 2%nat))
             2%nat
             ([EvAcquire "dev.lock"; EvConnect "10.0.0.1" (Raise (ApiError (-1)));
               EvRelease "dev.lock"] ++ EvSleep 10 ::
              [EvAcquire "dev.lock"; EvConnect "10.0.0.1" (Raise (ApiError (-1)));
               EvRelease "dev.lock"] ++ EvSleep 10 :: [])
             (1, stub_device)).
    + lia.
    + apply failed_attempts_S; [apply Hfails; vm_compute; lia|].
      apply failed_attempts_S; [apply Hfails; vm_compute; lia|].
      apply failed_attempts_O.
    + split; reflexivity.
  - apply (proj1 (proj2 (safe_api_connect_retry (stub 3 "STOP") "10.0.0.1" "dev.lock" 3 10
                           world0 Hr (Hs 3%nat)))
             ([EvAcquire "dev.lock"; EvConnect "10.0.0.1" (Raise (ApiError (-1)));
               EvRelease "dev.lock"] ++ EvSleep 10 ::
              [EvAcquire "dev.lock"; EvConnect "10.0.0.1" (Raise (ApiError (-1)));
               EvRelease "dev.lock"] ++ EvSleep 10 ::
              [EvAcquire "dev.lock"; EvConnect "10.0.0.1" (Raise (ApiError (-1)));
               EvRelease "dev.lock"] ++ EvSleep 10 :: [])).
    change (Z.to_nat 3) with 3%nat.
    apply failed_attempts_S; [apply Hfails; vm_compute; lia|].
    apply failed_attempts_S; [apply Hfails; vm_compute; lia|].
    apply failed_attempts_S; [apply Hfails; vm_compute; lia|].
    apply failed_attempts_O.
Defined.

(** ** The lock around each call *)

Lemma lock_held_after_app l h es1 es2 :
  lock_held_after l h (es1 ++ es2)
  = lock_held_after l (lock_held_after l h es1) es2.
Proof.
  revert h. induction es1 as [|e es1 IH]; intros h; [reflexivity|].
  destruct e; simpl; apply IH.
Qed.

Lemma api_calls_locked_app l h es1 es2 :
  api_calls_locked l h (es1 ++ es2)
  = api_calls_locked l h es1 && api_calls_locked l (lock_held_after l h es1) es2.
Proof.
  revert h. induction es1 as [|e es1 IH]; intros h; [reflexivity|].
  destruct e; simpl; rewrite IH; try reflexivity; by rewrite andb_assoc.
Qed.

Lemma lock_per_call_locked l call e tr :
  call e = true -> lock_per_call l call tr = true ->
  lock_per_call l call (EvAcquire l :: e :: EvRelease l :: tr) = true.
Proof. intros He Htr. simpl. by rewrite !bool_decide_true, He, Htr by done. Qed.

Lemma lock_per_call_refused l call tr :
  lock_per_call l call tr = true ->
  lock_per_call l call (EvAcquireFailed l :: tr) = true.
Proof. intros Htr. simpl. by rewrite bool_decide_true, Htr by done. Qed.

(** A trace in which the lock is taken for one call at a time is a list of
    locked calls, failures to enter the lock, and sleeps. *)
Lemma lock_per_call_inv l call tr :
  lock_per_call l call tr = true ->
  tr = [] \/
  (exists e tr', tr = EvAcquire l :: e :: EvRelease l :: tr' /\ call e = true /\
                 lock_per_call l call tr' = true) \/
  (exists tr', tr = EvAcquireFailed l :: tr' /\ lock_per_call l call tr' = true) \/
  (exists s tr', tr = EvSleep s :: tr' /\ lock_per_call l call tr' = true).
Proof.
  intros Htr. destruct tr as [|e1 tr]; [by left|right].
  destruct e1; try discriminate.
  - left. destruct tr as [|e2 [|e3 tr]]; try discriminate.
    destruct e3; try discriminate. simpl in Htr.
    apply andb_prop in Htr as [Htr Hrest]. apply andb_prop in Htr as [Htr H2].
    apply andb_prop in Htr as [H1 He].
    apply bool_decide_eq_true in H1 as ->. apply bool_decide_eq_true in H2 as ->.
    eauto.
  - right. left. simpl in Htr. apply andb_prop in Htr as [H1 Hrest].
    apply bool_decide_eq_true in H1 as ->. eauto.
  - right. right. eauto.
Qed.

Lemma lock_per_call_app l call es1 es2 :
  lock_per_call l call es1 = true -> lock_per_call l call es2 = true ->
  lock_per_call l call (es1 ++ es2) = true.
Proof.
  remember (length es1) as n eqn:Hn. revert es1 Hn.
  induction n as [n IH] using lt_wf_ind. intros es1 Hn H1 H2.
  destruct (lock_per_call_inv _ _ _ H1)
    as [->|[(e & tr & -> & He & Htr)|[(tr & -> & Htr)|(s & tr & -> & Htr)]]].
  - exact H2.
  - change ((EvAcquire l :: e :: EvRelease l :: tr) ++ es2)
      with (EvAcquire l :: e :: EvRelease l :: (tr ++ es2)).
    apply lock_per_call_locked; [exact He|].
    apply (IH (length tr)); [simpl in Hn; lia|reflexivity|exact Htr|exact H2].
  - change ((EvAcquireFailed l :: tr) ++ es2) with (EvAcquireFailed l :: (tr ++ es2)).
    apply lock_per_call_refused.
    apply (IH (length tr)); [simpl in Hn; lia|reflexivity|exact Htr|exact H2].
  - change ((EvSleep s :: tr) ++ es2) with (EvSleep s :: (tr ++ es2)).
    change (lock_per_call l call (tr ++ es2) = true).
    apply (IH (length tr)); [simpl in Hn; lia|reflexivity|exact Htr|exact H2].
Qed.

(** Then every call is made while the lock is held, and the lock is free
    again in the end. *)
Lemma lock_per_call_scoped l call tr :
  (forall e, call e = true -> is_api_call e = true) ->
  lock_per_call l call tr = true -> lock_scoped l tr.
Proof.
  intros Hcall. remember (length tr) as n eqn:Hn. revert tr Hn.
  induction n as [n IH] using lt_wf_ind. intros tr Hn Htr.
  destruct (lock_per_call_inv _ _ _ Htr)
    as [->|[(e & tr' & -> & He & Htr')|[(tr' & -> & Htr')|(s & tr' & -> & Htr')]]].
  - by split.
  - destruct (IH (length tr')) with (tr := tr') as [Hc Hh];
      [simpl in Hn; lia|reflexivity|exact Htr'|].
    pose proof (Hcall e He) as Hapi.
    split; simpl; rewrite decide_True by done;
      destruct e; try discriminate; simpl; by rewrite decide_True.
  - destruct (IH (length tr')) with (tr := tr') as [Hc Hh];
      [simpl in Hn; lia|reflexivity|exact Htr'|].
    by split.
  - destruct (IH (length tr')) with (tr := tr') as [Hc Hh];
      [simpl in Hn; lia|reflexivity|exact Htr'|].
    by split.
Qed.

Section Adds.

Context (P : list Event -> Prop).
Hypothesis P_nil : P [].
Hypothesis P_app : forall es1 es2, P es1 -> P es2 -> P (es1 ++ es2).

Lemma adds_ret {A} (a : A) : adds P (ret a).
Proof. intros w. exists [], (Ok a). by rewrite extend_nil. Qed.

Lemma adds_raise {A} e : adds P (@raise A e).
Proof. intros w. exists [], (Raise e). by rewrite extend_nil. Qed.

Lemma adds_bind {A B} (c : M A) (k : A -> M B) :
  adds P c -> (forall a, adds P (k a)) -> adds P (bind c k).
Proof.
  intros Hc Hk w. unfold bind.
  destruct (Hc w) as (es1 & r1 & -> & H1). destruct r1 as [a|e].
  - destruct (Hk a (extend es1 w)) as (es2 & r2 & -> & H2).
    exists (es1 ++ es2), r2. rewrite extend_extend. auto.
  - exists es1, (Raise e). auto.
Qed.

Lemma adds_for_in {X R} (xs : list X) (body : X -> M (option R)) :
  (forall x, adds P (body x)) -> adds P (for_in xs body).
Proof.
  intros Hbody. induction xs as [|x xs IH]; simpl.
  - apply adds_ret.
  - apply adds_bind; [apply Hbody|]. intros [v|]; [apply adds_ret|apply IH].
Qed.

End Adds.

Ltac lock_per_call_events :=
  simpl; rewrite ?bool_decide_true by done; reflexivity.

Lemma connect_attempt_per_call E address lockpath time_sleep :
  adds (fun es => lock_per_call lockpath is_connect es = true)
    (connect_attempt E address lockpath time_sleep).
Proof.
  intros w.
  unfold connect_attempt, try_except, with_FileLock, bind, log, sleep,
    api_Connect, interact, return_, next_item, raise, ret.
  simpl.
  destruct (lock_acquire E (trace w) lockpath) as [[]|e]; simpl.
  - destruct (Connect E (trace w ++ [EvAcquire lockpath]) address) as [conn|e]; simpl.
    + eexists _, _. rewrite !record_event_extend, !extend_extend.
      split; [reflexivity|lock_per_call_events].
    + destruct (decide (time_sleep < 0)); simpl;
        [|destruct (os_sleep E _ time_sleep) as [[]|e']; simpl];
        eexists _, _; rewrite !record_event_extend, !extend_extend;
        (split; [reflexivity|lock_per_call_events]).
  - destruct (decide (time_sleep < 0)); simpl;
      [|destruct (os_sleep E _ time_sleep) as [[]|e']; simpl];
      eexists _, _; rewrite !record_event_extend, ?extend_extend;
      (split; [reflexivity|lock_per_call_events]).
Qed.

Lemma disconnect_attempt_per_call E id_ lockpath time_sleep :
  adds (fun es => lock_per_call lockpath is_disconnect es = true)
    (disconnect_attempt E id_ lockpath time_sleep).
Proof.
  intros w.
  unfold disconnect_attempt, try_except, with_FileLock, bind, log, sleep,
    api_Disconnect, interact, return_, next_item, raise, ret.
  simpl.
  destruct (lock_acquire E (trace w) lockpath) as [[]|e]; simpl.
  - destruct (Disconnect E (trace w ++ [EvAcquire lockpath]) id_) as [[]|e]; simpl.
    + eexists _, _. rewrite !record_event_extend, !extend_extend.
      split; [reflexivity|lock_per_call_events].
    + destruct (decide (time_sleep < 0)); simpl;
        [|destruct (os_sleep E _ time_sleep) as [[]|e']; simpl];
        eexists _, _; rewrite !record_event_extend, !extend_extend;
        (split; [reflexivity|lock_per_call_events]).
  - destruct (decide (time_sleep < 0)); simpl;
      [|destruct (os_sleep E _ time_sleep) as [[]|e']; simpl];
      eexists _, _; rewrite !record_event_extend, ?extend_extend;
      (split; [reflexivity|lock_per_call_events]).
Qed.

Lemma safe_api_connect_per_call E address lockpath retries time_sleep :
  adds (fun es => lock_per_call lockpath is_connect es = true)
    (safe_api_connect E address lockpath retries time_sleep).
Proof.
  pose proof (lock_per_call_app lockpath is_connect) as Happ.
  unfold safe_api_connect.
  apply adds_bind; [done|apply adds_ret; done|]. intros _.
  apply adds_bind; [done| |].
  - apply adds_for_in; [done..|]. intros _. apply connect_attempt_per_call.
  - intros [conn|]; [apply adds_ret|apply adds_raise]; done.
Qed.

Lemma safe_api_disconnect_per_call E id_ lockpath retries time_sleep :
  adds (fun es => lock_per_call lockpath is_disconnect es = true)
    (safe_api_disconnect E id_ lockpath retries time_sleep).
Proof.
  pose proof (lock_per_call_app lockpath is_disconnect) as Happ.
  unfold safe_api_disconnect.
  apply adds_bind; [done|apply adds_ret; done|]. intros _.
  apply adds_bind; [done| |].
  - apply adds_for_in; [done..|]. intros _. apply disconnect_attempt_per_call.
  - intros [v|]; [apply adds_ret|apply adds_raise]; done.
Qed.

(** Lines 155-158 of [get_status]: the channel is queried without any lock
    being taken, and the block is left before a disconnect is attempted. *)
Lemma get_status_connected_events E id_ channel lockpath retries time_sleep w :
  new_events (get_status_connected E id_ channel lockpath retries time_sleep) w
  = [EvGetChannelInfo id_ channel (GetChannelInfo E (trace w) id_ channel)].
Proof.
  unfold new_events, get_status_connected, bind, log, ret, call, raise,
    api_GetChannelInfo, interact, set_channel_info, assign.
  simpl. destruct (GetChannelInfo E (trace w) id_ channel); simpl;
    by rewrite drop_app_length.
Qed.

(** C2 (amended).  [safe_api_connect] and [safe_api_disconnect] take the lock
    keyed by [lockpath] for each attempt on its own and hold it around the
    [api.Connect] or [api.Disconnect] call of that attempt only: what either
    of them adds to the trace is made of acquisitions of the lock that are
    each followed by one such call and then by the release of the lock, of
    failures to enter the lock, and of sleeps, which are all made with the
    lock released.  So every such call is made while the lock is held, and
    the lock is free when the function returns or raises.  The lock is not
    held across the sequence: the channel query that follows the connection
    in [get_status] (lines 155-158) is made without any lock being taken. *)
Theorem lock_scoped_to_each_attempt (E : Env) (address : string) (id_ channel : Z)
    (lockpath : string) (retries time_sleep : Z) (w : World) :
  (exists es r,
     safe_api_connect E address lockpath retries time_sleep w = (extend es w, r) /\
     lock_per_call lockpath is_connect es = true /\
     api_calls_locked lockpath false es = true /\
     lock_held_after lockpath false es = false) /\
  (exists es r,
     safe_api_disconnect E id_ lockpath retries time_sleep w = (extend es w, r) /\
     lock_per_call lockpath is_disconnect es = true /\
     api_calls_locked lockpath false es = true /\
     lock_held_after lockpath false es = false) /\
  new_events (get_status_connected E id_ channel lockpath retries time_sleep) w
  = [EvGetChannelInfo id_ channel (GetChannelInfo E (trace w) id_ channel)].
Proof.
  split; [|split].
  - destruct (safe_api_connect_per_call E address lockpath retries time_sleep w)
      as (es & r & Hrun & Hes).
    exists es, r. split; [exact Hrun|]. split; [exact Hes|].
    apply (lock_per_call_scoped lockpath is_connect); [|exact Hes].
    by intros [].
  - destruct (safe_api_disconnect_per_call E id_ lockpath retries time_sleep w)
      as (es & r & Hrun & Hes).
    exists es, r. split; [exact Hrun|]. split; [exact Hes|].
    apply (lock_per_call_scoped lockpath is_disconnect); [|exact Hes].
    by intros [].
  - apply get_status_connected_events.
Qed.

(** C2 (counterexample).  With a stub on which every call succeeds:
    [get_status] does not hold the lock throughout its calls of the API;
    [safe_api_connect] returns the connection with the lock released; and
    the channel query that lines 155-158 make from there is a call of the API
    that is made while the lock is not held. *)
Lemma lock_not_held_throughout :
  held_throughout "dev.lock"
    (new_events (get_status (stub 0 "STOP") "10.0.0.1" 1 "dev.lock" 3 10) world0)
  = false
  /\ safe_api_connect (stub 0 "STOP") "10.0.0.1" "dev.lock" 3 10 world0
     = (extend [EvAcquire "dev.lock"; EvConnect "10.0.0.1" (Ok (1, stub_device));
                EvRelease "dev.lock"] world0,
        Ok (1, stub_device))
  /\ lock_held_after "dev.lock" false
       (trace (fst (safe_api_connect (stub 0 "STOP") "10.0.0.1" "dev.lock" 3 10 world0)))
     = false
  /\ trace (fst (get_status_connected (stub 0 "STOP") 1 1 "dev.lock" 3 10
                   (fst (safe_api_connect (stub 0 "STOP") "10.0.0.1" "dev.lock" 3 10
                           world0))))
     = [EvAcquire "dev.lock"; EvConnect "10.0.0.1" (Ok (1, stub_device));
        EvRelease "dev.lock"; EvGetChannelInfo 1 1 (Ok (stub_channel "STOP"))]
  /\ api_calls_locked "dev.lock" false
       (trace (fst (get_status_connected (stub 0 "STOP") 1 1 "dev.lock" 3 10
                      (fst (safe_api_connect (stub 0 "STOP") "10.0.0.1" "dev.lock" 3 10
                              world0)))))
     = false.
Proof. repeat split; vm_compute; reflexivity. Qed.

(** ** [safe_api_disconnect] goes on after a successful attempt *)

Lemma disconnect_attempt_goes_on E id_ lockpath time_sleep w :
  exists w', disconnect_attempt E id_ lockpath time_sleep w = (w', Ok None) \/
             exists e, disconnect_attempt E id_ lockpath time_sleep w = (w', Raise e).
Proof.
  unfold disconnect_attempt, try_except, with_FileLock, bind, log, sleep,
    api_Disconnect, interact, return_, next_item, raise, ret.
  simpl.
  destruct (lock_acquire E (trace w) lockpath) as [[]|e]; simpl.
  - destruct (Disconnect E (trace w ++ [EvAcquire lockpath]) id_) as [[]|e]; simpl;
      [eauto|].
    destruct (decide (time_sleep < 0)); simpl; [eauto|].
    destruct (os_sleep E _ time_sleep) as [[]|e']; simpl; eauto.
  - destruct (decide (time_sleep < 0)); simpl; [eauto|].
    destruct (os_sleep E _ time_sleep) as [[]|e']; simpl; eauto.
Qed.

Lemma for_in_goes_on {X R} (body : X -> M (option R)) :
  (forall x w, exists w', body x w = (w', Ok None) \/
                          exists e, body x w = (w', Raise e)) ->
  forall xs w, exists w', for_in xs body w = (w', Ok None) \/
                          exists e, for_in xs body w = (w', Raise e).
Proof.
  intros Hbody xs. induction xs as [|x xs IH]; intros w; simpl.
  - exists w. by left.
  - unfold bind. destruct (Hbody x w) as (w1 & [->|[e ->]]).
    + apply IH.
    + exists w1. right. by exists e.
Qed.

(** C4 (what the code does).  Whatever the
    attempts do, [safe_api_disconnect] raises: there is no input for which
    it returns to its caller. *)
Theorem safe_api_disconnect_always_raises (E : Env) (id_ : Z) (lockpath : string)
    (retries time_sleep : Z) (w : World) :
  exists w' e, safe_api_disconnect E id_ lockpath retries time_sleep w = (w', Raise e).
Proof.
  unfold safe_api_disconnect, bind, log, ret. simpl.
  destruct (for_in_goes_on
              (fun _ : Z => disconnect_attempt E id_ lockpath time_sleep)
              (fun _ w0 => disconnect_attempt_goes_on E id_ lockpath time_sleep w0)
              (range retries) w) as (w' & [->|[e ->]]).
  - by eexists _, _.
  - by eexists _, _.
Qed.

(** One retry and a [Disconnect] that succeeds: the exception all the same. *)
Example safe_api_disconnect_success_raises :
  safe_api_disconnect (stub 0 "STOP") 1 "dev.lock" 1 10 world0
  = (extend [EvAcquire "dev.lock"; EvDisconnect 1 (Ok tt); EvRelease "dev.lock"] world0,
     Raise (Exception "Failed to disconnect after 1 retries")).
Proof. vm_compute. reflexivity. Qed.

(** Three retries and a [Disconnect] that succeeds each time: it is called
    three times. *)
Example safe_api_disconnect_repeats :
  count is_disconnect
    (new_events (safe_api_disconnect (stub 0 "STOP") 1 "dev.lock" 3 10) world0)
  = 3%nat.
Proof. vm_compute. reflexivity. Qed.

(** X3.  With a sleep length that [time.sleep] takes, the loop of
    [safe_api_disconnect] makes all of its [retries] passes, successful ones
    included, before the exception. *)
Lemma safe_api_disconnect_passes (E : Env) (id_ : Z) (lockpath : string)
    (retries time_sleep : Z) (w : World) :
  sleeps E time_sleep ->
  exists passes : list (list Event),
    Forall (disconnect_pass id_ lockpath time_sleep) passes /\
    length passes = Z.to_nat retries /\
    safe_api_disconnect E id_ lockpath retries time_sleep w
    = (extend (concat passes) w,
       Raise (Exception ("Failed to disconnect after " +:+ pretty retries +:+ " retries"))).
Proof.
  intros Hs.
  assert (Hpass : forall w0, exists es,
            disconnect_pass id_ lockpath time_sleep es /\
            disconnect_attempt E id_ lockpath time_sleep w0 = (extend es w0, Ok None)).
  { intros w0.
    unfold disconnect_attempt, try_except, with_FileLock, bind, log,
      api_Disconnect, interact, return_, next_item, ret.
    simpl.
    destruct (lock_acquire E (trace w0) lockpath) as [[]|e]; simpl.
    - destruct (Disconnect E (trace w0 ++ [EvAcquire lockpath]) id_) as [[]|e]; simpl.
      + eexists. split; [apply disconnect_pass_ok|].
        rewrite !record_event_extend, !extend_extend. reflexivity.
      + eexists. split; [apply (disconnect_pass_raise _ _ _ e)|].
        rewrite (sleep_sleeps _ _ _ Hs).
        rewrite !record_event_extend, !extend_extend. reflexivity.
    - eexists. split; [apply disconnect_pass_lock|].
      rewrite (sleep_sleeps _ _ _ Hs).
      rewrite !record_event_extend, !extend_extend. reflexivity. }
  assert (Hloop : forall (xs : list Z) w0, exists passes,
            Forall (disconnect_pass id_ lockpath time_sleep) passes /\
            length passes = length xs /\
            for_in xs (fun _ => disconnect_attempt E id_ lockpath time_sleep) w0
            = (extend (concat passes) w0, Ok None)).
  { induction xs as [|x xs IH]; intros w0.
    - exists []. repeat split; [constructor|]. simpl. unfold ret. by rewrite extend_nil.
    - destruct (Hpass w0) as (es & Hes & Hrun).
      destruct (IH (extend es w0)) as (ps & Hps & Hlen & Hrest).
      exists (es :: ps). repeat split; [by constructor|simpl; lia|].
      simpl. unfold bind. rewrite Hrun, Hrest, extend_extend. reflexivity. }
  destruct (Hloop (range retries) w) as (ps & Hps & Hlen & Hrun).
  exists ps. rewrite length_range in Hlen. repeat split; [done..|].
  unfold safe_api_disconnect, bind, log, ret. simpl. by rewrite Hrun.
Qed.

(** ** The callers: [safe_api_connect] is called without its [logger] *)

(** The clause [except Exception as e: logger.critical(f"{e=}")] that closes
    the [try] block of each caller: whatever the block raises, the function
    goes on after the clause. *)
Lemma except_clause_swallows (body : M unit) (w : World) :
  exists w', try_except body (fun e => log "e=") w = (w', Ok tt).
Proof.
  unfold try_except, log, ret.
  destruct (body w) as [w' [[]|e]]; by exists w'.
Qed.

(** C5 (what the code does).  [get_status]
    and [get_data] do not hand the failure of the connection on to their
    caller: the [except] clause swallows it, and the caller gets the
    [UnboundLocalError] of the first variable that the [try] block did not
    assign. *)
Theorem status_and_data_hide_connection_failure (E : Env) (address : string)
    (channel : Z) (lockpath : string) (retries time_sleep : Z) (w : World) :
  snd (get_status E address channel lockpath retries time_sleep w)
  = match GetLibVersion E (trace w) with
    | Ok _ => Raise (UnboundLocalError "device_info")
    | Raise e => Raise e
    end
  /\ snd (get_data E address channel lockpath retries time_sleep w)
     = Raise (UnboundLocalError "data").
Proof.
  split.
  - unfold get_status, with_new_frame, bind, try_except, call, log, ret, raise,
      api_GetLibVersion, interact, read_var.
    simpl. by destruct (GetLibVersion E (trace w)).
  - reflexivity.
Qed.

(** Lines 167-173 by themselves: STOP is ready, RUN is not ready, any other
    state raises [ValueError]. *)
Lemma ready_of_channel_state_cases (channel_state : string) (w : World) :
  ready_of_channel_state channel_state w
  = (w, if decide (channel_state = "STOP") then Ok true
        else if decide (channel_state = "RUN") then Ok false
        else Raise (ValueError "channel state not understood")).
Proof.
  unfold ready_of_channel_state. by repeat case_decide.
Qed.

(** C6 (what the code does).  [get_status]
    does not return: whatever the state of the channel, STOP and RUN
    included, its caller gets an exception and no ready flag. *)
Theorem get_status_returns_no_ready_flag (E : Env) (address : string)
    (channel : Z) (lockpath : string) (retries time_sleep : Z) (w : World) :
  exists e, snd (get_status E address channel lockpath retries time_sleep w) = Raise e.
Proof.
  unfold get_status, with_new_frame, bind, try_except, call, log, ret, raise,
    api_GetLibVersion, interact, read_var.
  simpl. destruct (GetLibVersion E (trace w)); simpl; eauto.
Qed.

(** A channel in the state STOP, and one in the state RUN. *)
Example get_status_stopped_channel :
  snd (get_status (stub 0 "STOP") "10.0.0.1" 1 "dev.lock" 3 10 world0)
  = Raise (UnboundLocalError "device_info")
  /\ snd (get_status (stub 0 "RUN") "10.0.0.1" 1 "dev.lock" 3 10 world0)
     = Raise (UnboundLocalError "device_info").
Proof. split; vm_compute; reflexivity. Qed.

(** C3 (what the code does).  [stop_job]
    returns a timestamp, and what it has done by then is to close the job
    queue, if there is one: it has not called [api.StopChannel] and it has
    not attempted the disconnect. *)
Theorem stop_job_never_disconnects (E : Env) (address : string) (channel : Z)
    (jobqueue : bool) (lockpath : string) (retries time_sleep : Z) (w : World) :
  exists t,
    stop_job E address channel jobqueue lockpath retries time_sleep w
    = (extend (if jobqueue then [EvQueueClose] else []) w, Ok t)
    /\ count is_disconnect
         (new_events (stop_job E address channel jobqueue lockpath retries time_sleep) w)
       = 0%nat.
Proof.
  assert (Hrun : exists t,
    stop_job E address channel jobqueue lockpath retries time_sleep w
    = (extend (if jobqueue then [EvQueueClose] else []) w, Ok t)).
  { destruct w as [tr l], jobqueue; eexists; unfold extend; simpl;
      rewrite ?app_nil_r; reflexivity. }
  destruct Hrun as [t Hrun]. exists t. split; [exact Hrun|].
  rewrite (new_events_extend _ _ _ _ Hrun). by destruct jobqueue.
Qed.

(** X6.  Lines 344-347 by themselves, in [stop_job], where [dt] is not
    assigned yet: once [api.StopChannel] has been called the block is left by an
    exception, that of the call or the [UnboundLocalError] of [dt], and the
    disconnect of line 347 is not reached. *)
Lemma stop_job_connected_skips_disconnect (E : Env) (conn : Z * DeviceInfo)
    (channel : Z) (lockpath : string) (retries time_sleep : Z) (w : World) :
  v_dt (locals w) = None ->
  stop_job_connected E conn channel lockpath retries time_sleep w
  = (extend [EvStopChannel (fst conn) channel (StopChannel E (trace w) (fst conn) channel)] w,
     match StopChannel E (trace w) (fst conn) channel with
     | Ok _ => Raise (UnboundLocalError "dt")
     | Raise e => Raise e
     end).
Proof.
  intros Hdt.
  unfold stop_job_connected, bind, log, ret, api_StopChannel, interact, read_var.
  simpl. rewrite Hdt. by destruct (StopChannel E (trace w) (fst conn) channel).
Qed.

(** C9 (what the code does).  [start_job]
    returns a timestamp and leaves the world as it found it: no technique
    has been loaded and the channel has not been started. *)
Theorem start_job_loads_nothing (E : Env) (address : string) (channel : Z)
    (payload : Payload) (dllpath lockpath : string) (retries time_sleep : Z)
    (capacity : Capacity) (w : World) :
  start_job E address channel payload dllpath lockpath retries time_sleep capacity w
  = (w, match payload_to_ecc E payload capacity with
        | Ok _ => Ok (clock E (trace w))
        | Raise e => Raise e
        end).
Proof.
  unfold start_job, with_new_frame, bind, try_except, call, log, ret, raise, lift, now.
  destruct w as [tr l]. simpl. by destruct (payload_to_ecc E payload capacity).
Qed.

Example start_job_one_technique :
  start_job (stub 0 "STOP") "10.0.0.1" 1 [("OCV", [("time", 10)])] "C:/kbio/"
    "dev.lock" 3 10 0 world0
  = (world0, Ok 0)
  /\ count is_load_or_start
       (new_events
          (start_job (stub 0 "STOP") "10.0.0.1" 1 [("OCV", [("time", 10)])] "C:/kbio/"
             "dev.lock" 3 10 0) world0)
     = 0%nat.
Proof. split; vm_compute; reflexivity. Qed.

(** Lines 284-293 by themselves, on an API that accepts every technique:
    the techniques are loaded in the order of [eccpars], [first] is set on
    the first one only and [last] on the last one only. *)
Lemma load_techniques_from (E : Env) (dllpath : string) (id_ channel : Z)
    (device_info : DeviceInfo) (n : nat) (rest : list (string * EccPars)) :
  (forall h techfile pars first last,
     LoadTechnique E h id_ channel techfile pars first last false = Ok tt) ->
  forall (k : nat) (last : bool) (w : World),
    n = (k + length rest)%nat ->
    (last = false \/ rest = []) ->
    load_techniques E dllpath id_ channel device_info (Z.of_nat n) rest
      (bool_decide (k = 0%nat)) last (Z.of_nat k + 1) w
    = (extend
         (imap (fun i tp =>
                  EvLoadTechnique id_ channel
                    (get_kbio_techpath E dllpath tp.1 (model device_info)) tp.2
                    (bool_decide ((k + i)%nat = 0%nat))
                    (bool_decide (S (k + i) = n)) false (Ok tt))
               rest)
         w,
       Ok tt).
Proof.
  intros Hload. induction rest as [|[techname pars] rest IH]; intros k last w Hn Hlast.
  - simpl. unfold ret. by rewrite extend_nil.
  - destruct Hlast as [->|?]; [|done].
    simpl in Hn. simpl load_techniques.
    unfold bind, log, ret, api_LoadTechnique, interact. simpl.
    rewrite Hload. rewrite record_event_extend.
    replace (Z.of_nat k + 1 + 1) with (Z.of_nat (S k) + 1) by lia.
    change false with (bool_decide (S k = 0%nat)) at 3.
    rewrite (IH (S k)); [|lia|].
    + rewrite extend_extend. f_equal. f_equal. simpl. f_equal.
      * rewrite Nat.add_0_r. f_equal.
        case_decide; case_bool_decide; try reflexivity; lia.
      * apply imap_ext. intros i tp _. simpl.
        replace (k + S i)%nat with (S k + i)%nat by lia. reflexivity.
    + destruct rest as [|tp rest]; [by right|left].
      case_decide; [|reflexivity]. simpl in Hn. lia.
Qed.

(** X4.  The loop of [start_job] that loads the techniques (lines 284-293),
    on an API that accepts every technique: the techniques are loaded in the
    order of [eccpars], [first] is set on the first one only and [last] on
    the last one only (both on the only one). *)
Lemma load_techniques_marks (E : Env) (dllpath : string) (id_ channel : Z)
    (device_info : DeviceInfo) (eccpars : list (string * EccPars)) (w : World) :
  (forall h techfile pars first last,
     LoadTechnique E h id_ channel techfile pars first last false = Ok tt) ->
  load_techniques E dllpath id_ channel device_info (Z.of_nat (length eccpars)) eccpars
    true false 1 w
  = (extend
       (imap (fun i tp =>
                EvLoadTechnique id_ channel
                  (get_kbio_techpath E dllpath tp.1 (model device_info)) tp.2
                  (bool_decide (i = 0%nat))
                  (bool_decide (S i = length eccpars)) false (Ok tt))
             eccpars)
       w,
     Ok tt).
Proof.
  intros Hload.
  apply (load_techniques_from E dllpath id_ channel device_info (length eccpars)
           eccpars Hload 0%nat false w); [reflexivity|by left].
Qed.

End BiologicProofs.

Module CliProofs.
Import Cli Tomato.

Lemma status_running (port timeout : Z) (net : Net) (pipelines : gmap string Pipeline) :
  0 <= port ->
  daemon net = Some pipelines ->
  status port timeout net
  = ({| daemon := Some pipelines; sent := sent net ++ [CmdStatus] |},
     Some {| success := true;
             msg := "tomato running on port " +:+ pretty port;
             data := DaemonData pipelines |}).
Proof.
  intros Hport Hd. unfold status, send_recv.
  rewrite decide_False by lia. by rewrite Hd.
Qed.

(** C7.  A pipeline is known when the daemon answers the status query, on
    a port that is then not negative, and lists the pipeline.  For every
    known pipeline that satisfies the invariant of the pipelines (one with a
    job is ready and holds a sample): when its [jobid]
    is set, [pipeline_eject] returns the failure reply "cannot eject from a
    running pipeline"; when its [sampleid] is empty, it returns the success
    reply "was already empty".  In both cases it has sent the status query
    only, and the pipelines of the daemon, this one among them, are as they
    were. *)
Theorem pipeline_eject_busy_or_empty (port timeout : Z) (pipeline : string) (net : Net)
    (pipelines : gmap string Pipeline) (pip : Pipeline) :
  0 <= port ->
  daemon net = Some pipelines ->
  pipelines !! pipeline = Some pip ->
  consistent pip ->
  (jobid pip <> None ->
   pipeline_eject port timeout pipeline net
   = ({| daemon := Some pipelines; sent := sent net ++ [CmdStatus] |},
      Some {| success := false;
              msg := "cannot eject from a running pipeline";
              data := PipelineData pip |})) /\
  (sampleid pip = None ->
   pipeline_eject port timeout pipeline net
   = ({| daemon := Some pipelines; sent := sent net ++ [CmdStatus] |},
      Some {| success := true;
              msg := "pipeline " +:+ pipeline +:+ " was already empty";
              data := PipelineData pip |})).
Proof.
  intros Hport Hd Hpip Hcons. unfold pipeline_eject.
  rewrite (status_running _ _ _ _ Hport Hd). simpl. rewrite Hpip. split.
  - intros Hjob. destruct (Hcons Hjob) as [_ Hsample]. by repeat case_decide.
  - intros Hsample. by case_decide.
Qed.

Lemma pipeline_eject_busy_or_empty_witness :
  0 <= 1234 /\
  daemon (running example_pipelines) = Some example_pipelines /\
  example_pipelines !! "cell-01" = Some busy_pipeline /\
  example_pipelines !! "cell-05" = Some empty_pipeline /\
  consistent busy_pipeline /\
  consistent empty_pipeline /\
  jobid busy_pipeline <> None /\
  sampleid empty_pipeline = None /\
  pipeline_eject 1234 3000 "cell-01" (running example_pipelines)
  = ({| daemon := Some example_pipelines; sent := [CmdStatus] |},
     Some {| success := false;
             msg := "cannot eject from a running pipeline";
             data := PipelineData busy_pipeline |}) /\
  pipeline_eject 1234 3000 "cell-05" (running example_pipelines)
  = ({| daemon := Some example_pipelines; sent := [CmdStatus] |},
     Some {| success := true;
             msg := "pipeline cell-05 was already empty";
             data := PipelineData empty_pipeline |}).
Proof.
  assert (Hport : 0 <= 1234) by lia.
  assert (Hbusy : consistent busy_pipeline).
  { intros _. split; [reflexivity|discriminate]. }
  assert (Hempty : consistent empty_pipeline).
  { intros Hjob. by contradict Hjob. }
  split; [exact Hport|]. do 3 (split; [reflexivity|]).
  split; [exact Hbusy|]. split; [exact Hempty|].
  split; [discriminate|]. split; [reflexivity|]. split.
  - apply (pipeline_eject_busy_or_empty 1234 3000 "cell-01" (running example_pipelines)
             example_pipelines busy_pipeline Hport eq_refl eq_refl Hbusy).
    discriminate.
  - apply (pipeline_eject_busy_or_empty 1234 3000 "cell-05" (running example_pipelines)
             example_pipelines empty_pipeline Hport eq_refl eq_refl Hempty).
    reflexivity.
Defined.

(** Outside the invariant the order of the guards decides: a pipeline whose
    [jobid] is set and whose [sampleid] is empty gets the success reply "was
    already empty", since line 346 looks at the [sampleid] before line 351
    looks at the [jobid]. *)
Remark pipeline_eject_busy_empty_succeeds :
  example_pipelines !! "cell-03" = Some busy_empty_pipeline /\
  pipeline_eject 1234 3000 "cell-03" (running example_pipelines)
  = ({| daemon := Some example_pipelines; sent := [CmdStatus] |},
     Some {| success := true;
             msg := "pipeline cell-03 was already empty";
             data := PipelineData busy_empty_pipeline |}).
Proof. split; reflexivity. Qed.

(** C8 (amended).  For every known pipeline whose [ready] flag is set, which
    by the invariant of the pipelines is the case of every pipeline whose
    [jobid] is set, [pipeline_ready] returns the success reply "was already
    ready"; for every known pipeline whose [jobid] is set and whose [ready]
    flag is not set, it returns the failure reply "cannot mark a running
    pipeline as ready".  In both cases it has sent the status query only and
    the pipelines of the daemon are as they were. *)
Theorem pipeline_ready_busy (port timeout : Z) (pipeline : string) (net : Net)
    (pipelines : gmap string Pipeline) (pip : Pipeline) :
  0 <= port ->
  daemon net = Some pipelines ->
  pipelines !! pipeline = Some pip ->
  (ready pip = true ->
   pipeline_ready port timeout pipeline net
   = ({| daemon := Some pipelines; sent := sent net ++ [CmdStatus] |},
      Some {| success := true;
              msg := "pipeline " +:+ pipeline +:+ " was already ready";
              data := PipelineData pip |})) /\
  (jobid pip <> None ->
   ready pip = false ->
   pipeline_ready port timeout pipeline net
   = ({| daemon := Some pipelines; sent := sent net ++ [CmdStatus] |},
      Some {| success := false;
              msg := "cannot mark a running pipeline as ready";
              data := PipelineData pip |})) /\
  (jobid pip <> None ->
   consistent pip ->
   pipeline_ready port timeout pipeline net
   = ({| daemon := Some pipelines; sent := sent net ++ [CmdStatus] |},
      Some {| success := true;
              msg := "pipeline " +:+ pipeline +:+ " was already ready";
              data := PipelineData pip |})).
Proof.
  intros Hport Hd Hpip. unfold pipeline_ready.
  rewrite (status_running _ _ _ _ Hport Hd). simpl. rewrite Hpip.
  split; [|split].
  - by intros ->.
  - intros Hjob ->. by case_decide.
  - intros Hjob Hcons. destruct (Hcons Hjob) as [-> _]. reflexivity.
Qed.

Lemma pipeline_ready_busy_witness :
  0 <= 1234 /\
  daemon (running example_pipelines) = Some example_pipelines /\
  example_pipelines !! "cell-01" = Some busy_pipeline /\
  jobid busy_pipeline <> None /\
  consistent busy_pipeline /\
  pipeline_ready 1234 3000 "cell-01" (running example_pipelines)
  = ({| daemon := Some example_pipelines; sent := [CmdStatus] |},
     Some {| success := true;
             msg := "pipeline cell-01 was already ready";
             data := PipelineData busy_pipeline |}).
Proof.
  assert (Hport : 0 <= 1234) by lia.
  assert (Hbusy : consistent busy_pipeline).
  { intros _. split; [reflexivity|discriminate]. }
  assert (Hjob : jobid busy_pipeline <> None) by discriminate.
  split; [exact Hport|]. do 2 (split; [reflexivity|]).
  split; [exact Hjob|]. split; [exact Hbusy|].
  apply (pipeline_ready_busy 1234 3000 "cell-01" (running example_pipelines)
           example_pipelines busy_pipeline Hport eq_refl eq_refl);
    [exact Hjob|exact Hbusy].
Defined.

(** C8 (counterexample).  A known pipeline whose [jobid] is set, with the
    [ready] flag and the sample that the invariant asks of it:
    [pipeline_ready] returns a success reply. *)
Lemma pipeline_ready_busy_succeeds :
  ~ (forall (port timeout : Z) (pipeline : string) (pipelines : gmap string Pipeline)
            (pip : Pipeline),
       0 <= port ->
       pipelines !! pipeline = Some pip ->
       jobid pip <> None ->
       consistent pip ->
       exists rep,
         snd (pipeline_ready port timeout pipeline (running pipelines)) = Some rep /\
         success rep = false).
Proof.
  intros Hclaim.
  destruct (Hclaim 1234 3000 "cell-01" example_pipelines busy_pipeline)
    as (rep & Hrep & Hfail); [lia|reflexivity|discriminate| |].
  - intros _. split; [reflexivity|discriminate].
  - vm_compute in Hrep. by simplify_eq.
Qed.

Lemma eject_params_sampleid :
  ({[ "sampleid" := PyNone; "ready" := PyBool false ]} : gmap string PyVal) !! "sampleid"
  = Some PyNone.
Proof. reflexivity. Qed.

Lemma eject_params_ready :
  ({[ "sampleid" := PyNone; "ready" := PyBool false ]} : gmap string PyVal) !! "ready"
  = Some (PyBool false).
Proof. reflexivity. Qed.

(** C10 (amended).  For every known pipeline with a [sampleid] and without a
    [jobid], [pipeline_eject] sends, after the status query, one [pipeline]
    command whose parameters set [sampleid] to [None] and [ready] to
    [False], and returns a success reply; in the daemon the pipeline is then
    empty and not ready, its [jobid] still unset, and this is the record the
    reply carries.  For every known pipeline whose [sampleid] is empty,
    [pipeline_eject] returns a success reply as well, having sent the status
    query only: the pipeline is as it was, its [ready] flag included. *)
Theorem pipeline_eject_clears_sample_and_ready (port timeout : Z) (pipeline : string)
    (net : Net) (pipelines : gmap string Pipeline) (pip : Pipeline) :
  0 <= port ->
  daemon net = Some pipelines ->
  pipelines !! pipeline = Some pip ->
  (sampleid pip <> None ->
   jobid pip = None ->
   pipeline_eject port timeout pipeline net
   = ({| daemon :=
           Some (<[pipeline := {| sampleid := None; ready := false; jobid := None |}]>
                   pipelines);
         sent := sent net ++
                 [CmdStatus;
                  CmdPipeline pipeline
                    {[ "sampleid" := PyNone; "ready" := PyBool false ]}] |},
      Some {| success := true;
              msg := "pipeline " +:+ pipeline +:+ " ejected succesffully";
              data := PipelineData
                        {| sampleid := None; ready := false; jobid := None |} |})) /\
  (sampleid pip = None ->
   pipeline_eject port timeout pipeline net
   = ({| daemon := Some pipelines; sent := sent net ++ [CmdStatus] |},
      Some {| success := true;
              msg := "pipeline " +:+ pipeline +:+ " was already empty";
              data := PipelineData pip |})).
Proof.
  intros Hport Hd Hpip.
  unfold pipeline_eject. rewrite (status_running _ _ _ _ Hport Hd).
  simpl. rewrite Hpip. split.
  - intros Hsample Hjob. repeat case_decide; try done.
    unfold send_recv. simpl. rewrite Hpip.
    unfold apply_params. rewrite eject_params_sampleid, eject_params_ready, Hjob.
    simpl. by rewrite <- app_assoc.
  - intros Hsample. by case_decide.
Qed.

Lemma pipeline_eject_clears_sample_and_ready_witness :
  0 <= 1234 /\
  daemon (running example_pipelines) = Some example_pipelines /\
  example_pipelines !! "cell-04" = Some loaded_pipeline /\
  sampleid loaded_pipeline <> None /\
  jobid loaded_pipeline = None /\
  pipeline_eject 1234 3000 "cell-04" (running example_pipelines)
  = ({| daemon :=
          Some (<["cell-04" := {| sampleid := None; ready := false; jobid := None |}]>
                  example_pipelines);
        sent := sent (running example_pipelines) ++
                [CmdStatus;
                 CmdPipeline "cell-04" {[ "sampleid" := PyNone; "ready" := PyBool false ]}] |},
     Some {| success := true;
             msg := "pipeline " +:+ "cell-04" +:+ " ejected succesffully";
             data := PipelineData {| sampleid := None; ready := false; jobid := None |} |}).
Proof.
  assert (Hport : 0 <= 1234) by lia.
  split; [exact Hport|]. do 2 (split; [reflexivity|]).
  split; [discriminate|]. split; [reflexivity|].
  apply (pipeline_eject_clears_sample_and_ready 1234 3000 "cell-04"
           (running example_pipelines) example_pipelines loaded_pipeline
           Hport eq_refl eq_refl);
    [discriminate|reflexivity].
Defined.

(** C10 (counterexample).  The empty pipeline "cell-05" is marked ready by
    [pipeline_ready], which does not ask for a sample; the eject that
    follows returns a success reply and leaves the pipeline as it finds it:
    empty and marked ready. *)
Lemma pipeline_eject_leaves_empty_ready :
  example_pipelines !! "cell-05"
  = Some {| sampleid := None; ready := false; jobid := None |} /\
  pipeline_ready 1234 3000 "cell-05" (running example_pipelines)
  = ({| daemon :=
          Some (<["cell-05" := {| sampleid := None; ready := true; jobid := None |}]>
                  example_pipelines);
        sent := [CmdStatus; CmdPipeline "cell-05" {[ "ready" := PyBool true ]}] |},
     Some {| success := true;
             msg := "pipeline cell-05 set as ready";
             data := PipelineData {| sampleid := None; ready := true; jobid := None |} |}) /\
  pipeline_eject 1234 3000 "cell-05"
    (fst (pipeline_ready 1234 3000 "cell-05" (running example_pipelines)))
  = ({| daemon :=
          Some (<["cell-05" := {| sampleid := None; ready := true; jobid := None |}]>
                  example_pipelines);
        sent := [CmdStatus; CmdPipeline "cell-05" {[ "ready" := PyBool true ]};
                 CmdStatus] |},
     Some {| success := true;
             msg := "pipeline cell-05 was already empty";
             data := PipelineData {| sampleid := None; ready := true; jobid := None |} |}) /\
  (<["cell-05" := {| sampleid := None; ready := true; jobid := None |}]> example_pipelines)
    !! "cell-05"
  = Some {| sampleid := None; ready := true; jobid := None |}.
Proof. repeat split; reflexivity. Qed.

End CliProofs.

(** * More on the driver *)

Module BiologicMore.
Import Biologic BiologicProofs.

Lemma range_nonpos (n : Z) : n <= 0 -> range n = [].
Proof. intros Hn. unfold range. by replace (Z.to_nat n) with 0%nat by lia. Qed.

Lemma range_pos (n : Z) : 1 <= n -> exists rest, range n = 0 :: rest.
Proof.
  intros Hn. unfold range.
  destruct (Z.to_nat n) as [|m] eqn:Hm; [lia|]. simpl. eauto.
Qed.

(** X1.  With [retries <= 0] the loops of [safe_api_connect] and
    [safe_api_disconnect] have no pass: both raise their exception at once,
    without touching the lock or the API and without sleeping. *)
Theorem no_retries_no_attempt (E : Env) (address : string) (id_ : Z)
    (lockpath : string) (retries time_sleep : Z) (w : World) :
  retries <= 0 ->
  safe_api_connect E address lockpath retries time_sleep w
  = (w, Raise (Exception ("Failed to connect after " +:+ pretty retries +:+ " retries")))
  /\ safe_api_disconnect E id_ lockpath retries time_sleep w
     = (w, Raise (Exception ("Failed to disconnect after " +:+ pretty retries +:+ " retries"))).
Proof.
  intros Hr. unfold safe_api_connect, safe_api_disconnect.
  rewrite (range_nonpos _ Hr). by split.
Qed.

Lemma no_retries_no_attempt_witness :
  0 <= 0 /\
  safe_api_connect (stub 0 "STOP") "10.0.0.1" "dev.lock" 0 10 world0
  = (world0, Raise (Exception ("Failed to connect after " +:+ pretty 0 +:+ " retries")))
  /\ safe_api_disconnect (stub 0 "STOP") 1 "dev.lock" 0 10 world0
     = (world0, Raise (Exception ("Failed to disconnect after " +:+ pretty 0 +:+ " retries"))).
Proof.
  split; [lia|].
  apply (no_retries_no_attempt (stub 0 "STOP") "10.0.0.1" 1 "dev.lock" 0 10 world0). lia.
Defined.



(** X28.  When the platform refuses the sleep, as it does for a length
    beyond what its clock takes, there is no second attempt either: the
    failed first attempt of [safe_api_connect] is followed by the exception
    of [time.sleep], which leaves the function from inside the [except]
    clause, the lock released. *)
Theorem refused_sleep_single_attempt (E : Env) (address lockpath : string)
    (retries time_sleep : Z) (w : World) (es : list Event) (e : PyExc) :
  1 <= retries ->
  0 <= time_sleep ->
  connect_fails E address lockpath (trace w) es ->
  os_sleep E (trace w ++ es) time_sleep = Raise e ->
  safe_api_connect E address lockpath retries time_sleep w = (extend es w, Raise e).
Proof.
  intros Hr Hs Hfails Hsleep. destruct (range_pos _ Hr) as [rest Hrange].
  unfold safe_api_connect. rewrite Hrange. simpl.
  unfold connect_attempt, try_except, with_FileLock, bind, log, sleep,
    api_Connect, interact, return_, next_item, raise.
  destruct (decide (time_sleep < 0)) as [Hneg|_]; [lia|].
  unfold ret. simpl.
  destruct Hfails as [e0 Hlock|e0 Hlock Hconn]; rewrite Hlock; simpl.
  - simpl in Hsleep. rewrite Hsleep. by rewrite !record_event_extend.
  - rewrite Hconn. simpl. rewrite <- !app_assoc. simpl in *. rewrite Hsleep.
    by rewrite !record_event_extend, !extend_extend.
Qed.

Lemma refused_sleep_single_attempt_witness :
  1 <= 3 /\
  0 <= 9223372037 /\
  connect_fails (stub 2 "STOP") "10.0.0.1" "dev.lock" (trace world0)
    [EvAcquire "dev.lock"; EvConnect "10.0.0.1" (Raise (ApiError (-1)));
     EvRelease "dev.lock"] /\
  os_sleep (stub 2 "STOP")
    (trace world0 ++
     [EvAcquire "dev.lock"; EvConnect "10.0.0.1" (Raise (ApiError (-1)));
      EvRelease "dev.lock"])
    9223372037
  = Raise (OverflowError "timestamp too large to convert to C _PyTime_t") /\
  safe_api_connect (stub 2 "STOP") "10.0.0.1" "dev.lock" 3 9223372037 world0
  = (extend
       [EvAcquire "dev.lock"; EvConnect "10.0.0.1" (Raise (ApiError (-1)));
        EvRelease "dev.lock"]
       world0,
     Raise (OverflowError "timestamp too large to convert to C _PyTime_t")).
Proof.
  assert (Hr : 1 <= 3) by lia.
  assert (Hs : 0 <= 9223372037) by lia.
  assert (Hfails :
    connect_fails (stub 2 "STOP") "10.0.0.1" "dev.lock" (trace world0)
      [EvAcquire "dev.lock"; EvConnect "10.0.0.1" (Raise (ApiError (-1)));
       EvRelease "dev.lock"]).
  { apply (connect_fails_api _ _ _ _ (ApiError (-1))); reflexivity. }
  split; [exact Hr|]. split; [exact Hs|]. split; [exact Hfails|].
  split; [reflexivity|].
  apply (refused_sleep_single_attempt (stub 2 "STOP") "10.0.0.1" "dev.lock" 3
           9223372037 world0 _ _ Hr Hs Hfails).
  reflexivity.
Defined.

Lemma safe_api_disconnect_passes_witness :
  sleeps (stub 0 "STOP") 10 /\
  exists passes : list (list Event),
    Forall (disconnect_pass 1 "dev.lock" 10) passes /\
    length passes = Z.to_nat 3 /\
    safe_api_disconnect (stub 0 "STOP") 1 "dev.lock" 3 10 world0
    = (extend (concat passes) world0,
       Raise (Exception ("Failed to disconnect after " +:+ pretty 3 +:+ " retries"))).
Proof.
  assert (Hs : sleeps (stub 0 "STOP") 10).
  { split; [lia|]. intros h. reflexivity. }
  split; [exact Hs|].
  apply (safe_api_disconnect_passes (stub 0 "STOP") 1 "dev.lock" 3 10 world0 Hs).
Defined.

Lemma stop_job_connected_skips_disconnect_witness :
  v_dt (locals world0) = None /\
  stop_job_connected (stub 0 "STOP") (1, stub_device) 1 "dev.lock" 3 10 world0
  = (extend [EvStopChannel (fst (1, stub_device)) 1
               (StopChannel (stub 0 "STOP") (trace world0) (fst (1, stub_device)) 1)]
       world0,
     match StopChannel (stub 0 "STOP") (trace world0) (fst (1, stub_device)) 1 with
     | Ok _ => Raise (UnboundLocalError "dt")
     | Raise e => Raise e
     end).
Proof.
  split; [reflexivity|].
  apply (stop_job_connected_skips_disconnect (stub 0 "STOP") (1, stub_device) 1
           "dev.lock" 3 10 world0).
  reflexivity.
Defined.

Lemma load_techniques_marks_witness :
  (forall h techfile pars first last,
     LoadTechnique (stub 0 "STOP") h 1 1 techfile pars first last false = Ok tt) /\
  load_techniques (stub 0 "STOP") "C:/kbio/" 1 1 stub_device
    (Z.of_nat (length [("OCV", []); ("CA", [("voltage", 4)]); ("CP", [])]))
    [("OCV", []); ("CA", [("voltage", 4)]); ("CP", [])] true false 1 world0
  = (extend
       (imap (fun i tp =>
                EvLoadTechnique 1 1
                  (get_kbio_techpath (stub 0 "STOP") "C:/kbio/" tp.1 (model stub_device))
                  tp.2 (bool_decide (i = 0%nat))
                  (bool_decide
                     (S i = length [("OCV", []); ("CA", [("voltage", 4)]); ("CP", [])]))
                  false (Ok tt))
             [("OCV", []); ("CA", [("voltage", 4)]); ("CP", [])])
       world0,
     Ok tt).
Proof.
  split; [reflexivity|].
  apply (load_techniques_marks (stub 0 "STOP") "C:/kbio/" 1 1 stub_device
           [("OCV", []); ("CA", [("voltage", 4)]); ("CP", [])] world0).
  reflexivity.
Defined.



End BiologicMore.

(** * More on the command line client *)

Module TomatoProofs.
Import Cli Tomato.

(** ** [set_loglevel] *)

(** X7.  [set_loglevel] never raises: the level it computes is one of the
    keys of [logging._levelToName].  It is WARNING (30) for [delta = 0],
    ten less per unit of [delta] down to DEBUG (10), ten more per unit below
    zero up to CRITICAL (50). *)
Theorem set_loglevel_total (delta : Z) :
  set_loglevel delta
  = Returns (if decide (delta <= -2) then 50
             else if decide (2 <= delta) then 10
             else 30 - 10 * delta).
Proof.
  unfold set_loglevel.
  destruct (decide (delta <= -2)) as [Hlow|Hlow].
  { by replace (Z.min (Z.max (30 - 10 * delta) 10) 50) with 50 by lia. }
  destruct (decide (2 <= delta)) as [Hhigh|Hhigh].
  { by replace (Z.min (Z.max (30 - 10 * delta) 10) 50) with 10 by lia. }
  assert (delta = -1 \/ delta = 0 \/ delta = 1) as [->|[->| ->]] by lia;
    reflexivity.
Qed.

(** ** [get_pipelines] *)

Lemma find_device_nonempty (devices : list Device) (name : string)
    (dpars : option Device) :
  devices <> [] ->
  find_device devices name dpars = find_device devices name None.
Proof.
  destruct devices as [|d rest]; [done|]. intros _. reflexivity.
Qed.

Lemma find_device_no_match (devices : list Device) (name : string)
    (dpars : option Device) :
  Forall (fun d => d_name d <> name) devices ->
  find_device devices name dpars = from_option Some dpars (last devices).
Proof.
  revert dpars. induction devices as [|d rest IH]; intros dpars Hnone; [by destruct dpars|].
  inversion Hnone as [|? ? Hd Hrest]; subst. simpl.
  destruct (decide (d_name d = name)); [done|].
  rewrite (IH _ Hrest), last_cons. by destruct (last rest).
Qed.

Lemma find_device_first_match (pre post : list Device) (d : Device) (name : string)
    (dpars : option Device) :
  Forall (fun x => d_name x <> name) pre ->
  d_name d = name ->
  find_device (pre ++ d :: post) name dpars = Some d.
Proof.
  revert dpars. induction pre as [|x pre IH]; intros dpars Hpre Hd; simpl.
  - by rewrite decide_True.
  - inversion Hpre; subst. rewrite decide_False by done. by apply IH.
Qed.

Lemma find_device_bound (devices : list Device) (name : string) (d : Device) :
  exists d', find_device devices name (Some d) = Some d'.
Proof.
  revert d. induction devices as [|x rest IH]; intros d; simpl; [eauto|].
  destruct (decide (d_name x = name)); eauto.
Qed.

(** X8.  The search for the device of a binding (lines 72-74, 86-88) ends
    with the first device of that name; when no device has the name it ends
    with the last device of the list, and the binding gets that one; only
    on an empty list of devices is no device found. *)
Theorem find_device_first_or_last (devices : list Device) (name : string) :
  (forall pre d post,
     devices = pre ++ d :: post ->
     Forall (fun x => d_name x <> name) pre ->
     d_name d = name ->
     find_device devices name None = Some d) /\
  (Forall (fun d => d_name d <> name) devices ->
   find_device devices name None = last devices) /\
  (find_device devices name None = None <-> devices = []).
Proof.
  split; [|split].
  - intros pre d post -> Hpre Hd. by apply find_device_first_match.
  - intros Hnone. rewrite (find_device_no_match _ _ _ Hnone).
    by destruct (last devices).
  - split; [|by intros ->].
    destruct devices as [|d rest]; [done|]. simpl.
    destruct (decide (d_name d = name)); [done|].
    destruct (find_device_bound rest name d) as [d' ->]. done.
Qed.

Lemma find_device_first_or_last_witness :
  example_devices = [] ++ counter_device :: [biologic_device] /\
  d_name counter_device = "dev-counter" /\
  find_device example_devices "dev-counter" None = Some counter_device /\
  Forall (fun d => d_name d <> "nowhere") example_devices /\
  find_device example_devices "nowhere" None = last example_devices.
Proof.
  pose proof (find_device_first_or_last example_devices "dev-counter") as [Hfirst _].
  pose proof (find_device_first_or_last example_devices "nowhere") as (_ & Hlast & _).
  assert (Hnone : Forall (fun d => d_name d <> "nowhere") example_devices).
  { repeat constructor; discriminate. }
  split; [reflexivity|]. split; [reflexivity|]. split.
  - apply (Hfirst [] counter_device [biologic_device] eq_refl); [constructor|reflexivity].
  - split; [exact Hnone|]. apply Hlast, Hnone.
Defined.

Lemma get_pipelines_loop_ret (devices : list Device) (pipelines : list PipelineConf)
    (ret : list PipelineOut) :
  get_pipelines_loop devices pipelines ret
  = match get_pipelines devices pipelines with
    | Returns outs => Returns (ret ++ outs)
    | Raises e => Raises e
    end.
Proof.
  unfold get_pipelines. revert ret.
  induction pipelines as [|pip rest IH]; intros ret; simpl.
  - by rewrite app_nil_r.
  - destruct (contains star (p_name pip)).
    + destruct (expand_wildcard devices pip) as [outs|e]; [|done].
      rewrite (IH (ret ++ outs)), (IH outs).
      destruct (get_pipelines_loop devices rest []); [|done].
      by rewrite app_assoc.
    + destruct (bind_devices devices (p_name pip) (p_devices pip) []) as [devs|e]; [|done].
      rewrite (IH (ret ++ _)), (IH [_]).
      destruct (get_pipelines_loop devices rest []); [|done].
      by rewrite <- app_assoc.
Qed.

(** X9.  The pipelines of a settings file are expanded one after the other:
    the result for [ps1 ++ ps2] is the result for [ps1] followed by the
    result for [ps2], and the exception of the first pipeline that fails. *)
Theorem get_pipelines_app (devices : list Device) (ps1 ps2 : list PipelineConf) :
  get_pipelines devices (ps1 ++ ps2)
  = match get_pipelines devices ps1 with
    | Raises e => Raises e
    | Returns outs1 =>
        match get_pipelines devices ps2 with
        | Raises e => Raises e
        | Returns outs2 => Returns (outs1 ++ outs2)
        end
    end.
Proof.
  induction ps1 as [|pip ps1 IH].
  - simpl. by destruct (get_pipelines devices ps2).
  - unfold get_pipelines in *. simpl.
    destruct (contains star (p_name pip)).
    + destruct (expand_wildcard devices pip) as [outs|e]; [|done].
      rewrite (get_pipelines_loop_ret _ (ps1 ++ ps2)), (get_pipelines_loop_ret _ ps1).
      unfold get_pipelines. rewrite IH.
      destruct (get_pipelines_loop devices ps1 []); [|done].
      destruct (get_pipelines_loop devices ps2 []); [|done].
      by rewrite app_assoc.
    + destruct (bind_devices devices (p_name pip) (p_devices pip) []) as [devs|e]; [|done].
      rewrite (get_pipelines_loop_ret _ (ps1 ++ ps2)), (get_pipelines_loop_ret _ ps1).
      unfold get_pipelines. rewrite IH.
      destruct (get_pipelines_loop devices ps1 []); [|done].
      destruct (get_pipelines_loop devices ps2 []); [|done].
      by rewrite app_assoc.
Qed.

Lemma expand_wildcard_first_match (pre post : list Device) (dpars : Device)
    (pip : PipelineConf) (ppars : Binding) :
  p_devices pip = [ppars] ->
  Forall (fun x => d_name x <> b_name ppars) pre ->
  d_name dpars = b_name ppars ->
  expand_wildcard (pre ++ dpars :: post) pip
  = Returns
      (map (fun ch =>
              {| o_name := replace star (pretty ch) (p_name pip);
                 o_devices := [<["channel" := VInt ch]> (tagged_device dpars (b_tag ppars))] |})
           (d_channels dpars)).
Proof.
  intros Hdevs Hpre Hname. unfold expand_wildcard.
  by rewrite Hdevs, (find_device_first_match _ _ _ _ _ Hpre Hname).
Qed.

(** X10.  A pipeline whose name has a ["*"] and that names one device is
    expanded into one pipeline for each channel of the first device of that
    name, in the order of the channels: its name is the pipeline's name with
    each ["*"] replaced by the number of the channel, and its one device is
    the device with the binding's tag and that channel. *)
Theorem wildcard_one_pipeline_per_channel (pre post : list Device) (dpars : Device)
    (pip : PipelineConf) (ppars : Binding) :
  contains star (p_name pip) = true ->
  p_devices pip = [ppars] ->
  Forall (fun x => d_name x <> b_name ppars) pre ->
  d_name dpars = b_name ppars ->
  get_pipelines (pre ++ dpars :: post) [pip]
  = Returns
      (map (fun ch =>
              {| o_name := replace star (pretty ch) (p_name pip);
                 o_devices := [<["channel" := VInt ch]> (tagged_device dpars (b_tag ppars))] |})
           (d_channels dpars)).
Proof.
  intros Hstar Hdevs Hpre Hname. unfold get_pipelines. simpl.
  by rewrite Hstar, (expand_wildcard_first_match _ _ _ _ _ Hdevs Hpre Hname).
Qed.

Lemma wildcard_one_pipeline_per_channel_witness :
  contains star (p_name wildcard_pipeline) = true /\
  p_devices wildcard_pipeline = [worker_binding] /\
  Forall (fun x => d_name x <> b_name worker_binding) [counter_device] /\
  d_name biologic_device = b_name worker_binding /\
  get_pipelines ([counter_device] ++ biologic_device :: []) [wildcard_pipeline]
  = Returns
      (map (fun ch =>
              {| o_name := replace star (pretty ch) (p_name wildcard_pipeline);
                 o_devices :=
                   [<["channel" := VInt ch]>
                      (tagged_device biologic_device (b_tag worker_binding))] |})
           (d_channels biologic_device)).
Proof.
  assert (Hpre : Forall (fun x => d_name x <> b_name worker_binding) [counter_device]).
  { repeat constructor; discriminate. }
  split; [reflexivity|]. split; [reflexivity|]. split; [exact Hpre|].
  split; [reflexivity|].
  apply (wildcard_one_pipeline_per_channel [counter_device] [] biologic_device
           wildcard_pipeline worker_binding eq_refl eq_refl Hpre eq_refl).
Defined.

(** The three pipelines of the example. *)
Example wildcard_pipeline_names :
  o_name <$> match get_pipelines example_devices [wildcard_pipeline] with
             | Returns outs => outs
             | Raises _ => []
             end
  = ["MPG2-1-1"; "MPG2-1-2"; "MPG2-1-3"].
Proof. reflexivity. Qed.

(** X11.  A pipeline whose name has a ["*"] and that names no device, or
    more than one, is refused with an [AssertionError]. *)
Theorem wildcard_needs_one_device (devices : list Device) (pip : PipelineConf) :
  contains star (p_name pip) = true ->
  length (p_devices pip) <> 1%nat ->
  get_pipelines devices [pip] = Raises AssertionError.
Proof.
  intros Hstar Hlen. unfold get_pipelines. simpl. rewrite Hstar.
  unfold expand_wildcard. by destruct (p_devices pip) as [|? [|? ?]].
Qed.

Lemma wildcard_needs_one_device_witness :
  contains star (p_name empty_wildcard_pipeline) = true /\
  length (p_devices empty_wildcard_pipeline) <> 1%nat /\
  get_pipelines example_devices [empty_wildcard_pipeline] = Raises AssertionError.
Proof.
  split; [reflexivity|]. split; [discriminate|].
  apply (wildcard_needs_one_device example_devices empty_wildcard_pipeline);
    [reflexivity|discriminate].
Defined.

Lemma bind_devices_bound (devices : list Device) (name : string)
    (bindings : list Binding) (devs : list (gmap string Value)) :
  Forall2 (bound_device devices) bindings devs ->
  forall data_devices,
    bind_devices devices name bindings data_devices = Returns (data_devices ++ devs).
Proof.
  induction 1 as [|ppars dev bindings devs (dpars & ch & Hfind & Hch & Hin & ->) _ IH];
    intros data_devices; simpl.
  - by rewrite app_nil_r.
  - rewrite Hfind, Hch. rewrite decide_True by done.
    rewrite IH. by rewrite <- app_assoc.
Qed.

Lemma bind_devices_unbound (devices : list Device) (name : string)
    (bindings : list Binding) :
  devices <> [] ->
  contains star name = false ->
  Exists (unbound_device devices) bindings ->
  forall data_devices,
    bind_devices devices name bindings data_devices = Raises AssertionError.
Proof.
  intros Hdevices Hstar.
  induction bindings as [|ppars bindings IH]; intros Hex data_devices;
    [by inversion Hex|].
  simpl.
  destruct (find_device devices (b_name ppars) None) as [dpars|] eqn:Hfind.
  2:{ exfalso. destruct devices as [|d rest]; [done|]. simpl in Hfind.
      destruct (decide (d_name d = b_name ppars)); [done|].
      by destruct (find_device_bound rest (b_name ppars) d) as [d' Hd']; rewrite Hd' in Hfind. }
  destruct (b_channel ppars) as [ch|] eqn:Hch; [|by rewrite Hstar].
  destruct (decide (ch ∈ d_channels dpars)) as [Hin|Hnotin]; [|done].
  apply IH. inversion Hex as [? ? Hhead|? ? Htail]; subst; [|done].
  exfalso. unfold unbound_device in Hhead. rewrite Hch in Hhead.
  by apply (Hhead dpars).
Qed.

(** X12.  A pipeline whose name has no ["*"] and whose bindings all have a
    channel that the device found for them has, gives one pipeline of the
    same name, with one device for each binding, in their order: the device
    found, with the binding's tag and channel. *)
Theorem fixed_pipeline_bound (devices : list Device) (pip : PipelineConf)
    (devs : list (gmap string Value)) :
  contains star (p_name pip) = false ->
  Forall2 (bound_device devices) (p_devices pip) devs ->
  get_pipelines devices [pip] = Returns [{| o_name := p_name pip; o_devices := devs |}].
Proof.
  intros Hstar Hbound. unfold get_pipelines. simpl.
  by rewrite Hstar, (bind_devices_bound _ _ _ _ Hbound []).
Qed.

Lemma fixed_pipeline_bound_witness :
  contains star (p_name fixed_pipeline) = false /\
  Forall2 (bound_device example_devices) (p_devices fixed_pipeline)
    [<["channel" := VInt 5]> (tagged_device counter_device "counter")] /\
  get_pipelines example_devices [fixed_pipeline]
  = Returns
      [{| o_name := p_name fixed_pipeline;
          o_devices := [<["channel" := VInt 5]> (tagged_device counter_device "counter")] |}].
Proof.
  assert (Hbound :
    Forall2 (bound_device example_devices) (p_devices fixed_pipeline)
      [<["channel" := VInt 5]> (tagged_device counter_device "counter")]).
  { repeat constructor. exists counter_device, 5.
    split; [reflexivity|]. split; [reflexivity|].
    split; [apply list_elem_of_here|reflexivity]. }
  split; [reflexivity|]. split; [exact Hbound|].
  apply (fixed_pipeline_bound example_devices fixed_pipeline _ eq_refl Hbound).
Defined.

(** X13.  A pipeline whose name has no ["*"] is refused with an
    [AssertionError] as soon as one of its bindings has no int channel, or
    has a channel that the device found for it does not have (the list of
    devices not being empty). *)
Theorem fixed_pipeline_refused (devices : list Device) (pip : PipelineConf) :
  devices <> [] ->
  contains star (p_name pip) = false ->
  Exists (unbound_device devices) (p_devices pip) ->
  get_pipelines devices [pip] = Raises AssertionError.
Proof.
  intros Hdevices Hstar Hex. unfold get_pipelines. simpl.
  by rewrite Hstar, (bind_devices_unbound _ _ _ Hdevices Hstar Hex []).
Qed.

Lemma fixed_pipeline_refused_witness :
  example_devices <> [] /\
  contains star (p_name unbound_pipeline) = false /\
  Exists (unbound_device example_devices) (p_devices unbound_pipeline) /\
  get_pipelines example_devices [unbound_pipeline] = Raises AssertionError.
Proof.
  assert (Hex : Exists (unbound_device example_devices) (p_devices unbound_pipeline)).
  { by left. }
  split; [discriminate|]. split; [reflexivity|]. split; [exact Hex|].
  apply (fixed_pipeline_refused example_devices unbound_pipeline);
    [discriminate|reflexivity|exact Hex].
Defined.

(** A binding that names a device that is not in the list gets the last
    device of the list. *)
Example unknown_device_gets_last_device :
  get_pipelines example_devices
    [{| p_name := "cell";
        p_devices := [{| b_name := "nowhere"; b_tag := "worker"; b_channel := Some 2 |}] |}]
  = Returns [{| o_name := "cell";
                o_devices := [<["channel" := VInt 2]>
                                (tagged_device biologic_device "worker")] |}].
Proof. reflexivity. Qed.

(** X14.  With an empty list of devices, a pipeline that has a binding to
    look up (one binding if its name has a ["*"], at least one otherwise) is
    refused with the [UnboundLocalError] of [dpars]. *)
Theorem no_devices_unbound_local (pip : PipelineConf) :
  p_devices pip <> [] ->
  (contains star (p_name pip) = true -> length (p_devices pip) = 1%nat) ->
  get_pipelines [] [pip] = Raises (UnboundLocal "dpars").
Proof.
  intros Hdevs Hone. unfold get_pipelines. simpl.
  destruct (contains star (p_name pip)).
  - unfold expand_wildcard. specialize (Hone eq_refl).
    by destruct (p_devices pip) as [|? [|? ?]].
  - by destruct (p_devices pip).
Qed.

Lemma no_devices_unbound_local_witness :
  p_devices fixed_pipeline <> [] /\
  (contains star (p_name fixed_pipeline) = true ->
   length (p_devices fixed_pipeline) = 1%nat) /\
  get_pipelines [] [fixed_pipeline] = Raises (UnboundLocal "dpars").
Proof.
  split; [discriminate|]. split; [reflexivity|].
  apply (no_devices_unbound_local fixed_pipeline); [discriminate|reflexivity].
Defined.

Lemma find_device_elem (devices : list Device) (name : string) (acc : option Device)
    (d : Device) :
  find_device devices name acc = Some d -> d ∈ devices \/ acc = Some d.
Proof.
  revert acc. induction devices as [|x rest IH]; intros acc; simpl; [by right|].
  case_decide.
  - intros [= ->]. left. apply list_elem_of_here.
  - intros Hfind. destruct (IH _ Hfind) as [Hin|[= ->]]; left.
    + by apply list_elem_of_further.
    + apply list_elem_of_here.
Qed.

Lemma device_entry_channel (devices : list Device) (dpars : Device) (tag : string)
    (ch : Z) :
  dpars ∈ devices -> ch ∈ d_channels dpars ->
  device_entry devices (<["channel" := VInt ch]> (tagged_device dpars tag)).
Proof.
  intros Hdev Hch. exists dpars, tag, ch. unfold tagged_device, device_dict.
  split; [exact Hdev|]. split; [exact Hch|]. repeat split.
  - rewrite !lookup_insert_ne by done. rewrite lookup_delete_ne by done.
    rewrite lookup_insert_ne by done. by rewrite lookup_insert_eq.
  - by rewrite lookup_insert_eq.
  - rewrite lookup_insert_ne by done. by rewrite lookup_insert_eq.
  - rewrite !lookup_insert_ne by done. by rewrite lookup_delete_eq.
Qed.

Lemma bind_devices_entries (devices : list Device) (name : string)
    (bindings : list Binding) :
  contains star name = false ->
  forall data_devices devs,
    Forall (device_entry devices) data_devices ->
    bind_devices devices name bindings data_devices = Returns devs ->
    Forall (device_entry devices) devs.
Proof.
  intros Hstar. induction bindings as [|ppars rest IH]; intros acc devs Hacc; simpl.
  - by intros [= <-].
  - destruct (find_device devices (b_name ppars) None) as [dpars|] eqn:Hfind; [|done].
    destruct (find_device_elem _ _ _ _ Hfind) as [Hdev|?]; [|done].
    destruct (b_channel ppars) as [ch|].
    + case_decide as Hch; [|done]. apply IH.
      apply Forall_app. split; [exact Hacc|].
      apply Forall_singleton. by apply device_entry_channel.
    + by rewrite Hstar.
Qed.

(** X15.  Every device entry of every pipeline that [get_pipelines] returns
    names a device of the settings and has, under "channel", one of the
    channels of that device, written by the pipeline (lines 80, 93) over
    whatever the device had under that key; it has a "tag" and no
    "channels". *)
Theorem get_pipelines_device_entries (devices : list Device)
    (pipelines : list PipelineConf) (outs : list PipelineOut) :
  get_pipelines devices pipelines = Returns outs ->
  Forall (fun out => Forall (device_entry devices) (o_devices out)) outs.
Proof.
  unfold get_pipelines.
  assert (Hloop : forall ret,
    Forall (fun out => Forall (device_entry devices) (o_devices out)) ret ->
    get_pipelines_loop devices pipelines ret = Returns outs ->
    Forall (fun out => Forall (device_entry devices) (o_devices out)) outs).
  { induction pipelines as [|pip rest IH]; intros ret Hret; simpl.
    - intros [= <-]. exact Hret.
    - destruct (contains star (p_name pip)) eqn:Hstar.
      + unfold expand_wildcard.
        destruct (p_devices pip) as [|ppars [|? ?]]; try done.
        destruct (find_device devices (b_name ppars) None) as [dpars|] eqn:Hfind;
          [|done].
        destruct (find_device_elem _ _ _ _ Hfind) as [Hdev|?]; [|done].
        apply IH. apply Forall_app. split; [exact Hret|].
        apply Forall_fmap, Forall_forall. intros ch Hch. simpl.
        apply Forall_singleton. by apply device_entry_channel.
      + destruct (bind_devices devices (p_name pip) (p_devices pip) []) as [devs|]
          eqn:Hbind; [|done].
        apply IH. apply Forall_app. split; [exact Hret|].
        apply Forall_singleton. simpl.
        by apply (bind_devices_entries devices (p_name pip) (p_devices pip) Hstar [] devs). }
  apply Hloop. constructor.
Qed.

(** A device that has a "channel" of its own, 99, bound to its channel 5. *)
Lemma get_pipelines_device_entries_witness :
  get_pipelines
    [{| d_name := "dev-counter"; d_channels := [5; 10];
        d_other := {[ "channel" := VInt 99 ]} |}]
    [fixed_pipeline]
  = Returns
      [{| o_name := "dummy-5";
          o_devices :=
            [{[ "channel" := VInt 5; "name" := VStr "dev-counter";
                "tag" := VStr "counter" ]}] |}] /\
  Forall (fun out =>
            Forall (device_entry
                      [{| d_name := "dev-counter"; d_channels := [5; 10];
                          d_other := {[ "channel" := VInt 99 ]} |}])
              (o_devices out))
    [{| o_name := "dummy-5";
        o_devices :=
          [{[ "channel" := VInt 5; "name" := VStr "dev-counter";
              "tag" := VStr "counter" ]}] |}].
Proof.
  assert (Hrun :
    get_pipelines
      [{| d_name := "dev-counter"; d_channels := [5; 10];
          d_other := {[ "channel" := VInt 99 ]} |}]
      [fixed_pipeline]
    = Returns
        [{| o_name := "dummy-5";
            o_devices :=
              [{[ "channel" := VInt 5; "name" := VStr "dev-counter";
                  "tag" := VStr "counter" ]}] |}]).
  { vm_compute. reflexivity. }
  split; [exact Hrun|].
  apply (get_pipelines_device_entries _ _ _ Hrun).
Defined.

(** *** The names of the pipelines *)

Lemma contains_app (c : Ascii.ascii) (s1 s2 : string) :
  contains c (s1 +:+ s2) = contains c s1 || contains c s2.
Proof. induction s1 as [|a s1 IH]; simpl; [done|]. by case_decide. Qed.

Lemma contains_replace (c : Ascii.ascii) (r s : string) :
  contains c r = false -> contains c (replace c r s) = false.
Proof.
  intros Hr. induction s as [|a s IH]; simpl; [done|].
  case_decide.
  - by rewrite contains_app, Hr, IH.
  - simpl. by rewrite decide_False.
Qed.

Lemma contains_pretty_N_go (x : N) (s : string) :
  contains star (pretty_N_go x s) = contains star s.
Proof.
  revert s. induction (N.lt_wf_0 x) as [x _ IH]; intros s.
  assert (x = 0 \/ 0 < x)%N as [->|Hx] by lia.
  - by rewrite pretty_N_go_0.
  - rewrite pretty_N_go_step by done.
    rewrite IH by (by apply N.div_lt). simpl.
    rewrite decide_False; [done|].
    unfold pretty_N_char, star. by repeat case_match.
Qed.

Lemma contains_pretty_Z (z : Z) : contains star (pretty z) = false.
Proof.
  unfold pretty, pretty_Z.
  destruct z as [|p|p]; [done| |];
    unfold pretty, pretty_positive, pretty, pretty_N;
    rewrite ?contains_app; case_decide; try done;
    by rewrite contains_pretty_N_go.
Qed.

(** X16.  No pipeline that [get_pipelines] returns has a ["*"] in its name. *)
Theorem get_pipelines_names_have_no_wildcard (devices : list Device)
    (pipelines : list PipelineConf) (outs : list PipelineOut) :
  get_pipelines devices pipelines = Returns outs ->
  Forall (fun out => contains star (o_name out) = false) outs.
Proof.
  unfold get_pipelines.
  assert (Hloop : forall ret,
    Forall (fun out => contains star (o_name out) = false) ret ->
    get_pipelines_loop devices pipelines ret = Returns outs ->
    Forall (fun out => contains star (o_name out) = false) outs).
  { induction pipelines as [|pip rest IH]; intros ret Hret; simpl.
    - intros [= <-]. exact Hret.
    - destruct (contains star (p_name pip)) eqn:Hstar.
      + unfold expand_wildcard.
        destruct (p_devices pip) as [|ppars [|? ?]]; try done.
        destruct (find_device devices (b_name ppars) None) as [dpars|]; [|done].
        apply IH. apply Forall_app. split; [exact Hret|].
        apply Forall_fmap, Forall_forall. intros ch _. simpl.
        apply contains_replace, contains_pretty_Z.
      + destruct (bind_devices devices (p_name pip) (p_devices pip) []); [|done].
        apply IH. apply Forall_app. split; [exact Hret|].
        by repeat constructor. }
  apply Hloop. constructor.
Qed.

Lemma get_pipelines_names_have_no_wildcard_witness :
  get_pipelines example_devices [wildcard_pipeline; fixed_pipeline]
  = Returns
      (map (fun ch =>
              {| o_name := replace star (pretty ch) "MPG2-1-*";
                 o_devices := [<["channel" := VInt ch]>
                                 (tagged_device biologic_device "worker")] |})
           [1; 2; 3]
       ++ [{| o_name := "dummy-5";
              o_devices := [<["channel" := VInt 5]>
                              (tagged_device counter_device "counter")] |}]) /\
  Forall (fun out => contains star (o_name out) = false)
    (map (fun ch =>
            {| o_name := replace star (pretty ch) "MPG2-1-*";
               o_devices := [<["channel" := VInt ch]>
                               (tagged_device biologic_device "worker")] |})
         [1; 2; 3]
     ++ [{| o_name := "dummy-5";
            o_devices := [<["channel" := VInt 5]>
                            (tagged_device counter_device "counter")] |}]).
Proof.
  split; [reflexivity|].
  apply (get_pipelines_names_have_no_wildcard example_devices
           [wildcard_pipeline; fixed_pipeline]).
  reflexivity.
Defined.

Lemma string_length_app (s1 s2 : string) :
  String.length (s1 +:+ s2) = (String.length s1 + String.length s2)%nat.
Proof. induction s1 as [|a s1 IH]; simpl; [done|]. by rewrite IH. Qed.

Lemma string_app_inj_length (r1 r2 t1 t2 : string) :
  String.length r1 = String.length r2 ->
  r1 +:+ t1 = r2 +:+ t2 ->
  r1 = r2.
Proof.
  revert r2. induction r1 as [|a r1 IH]; intros [|b r2] Hlen Heq; simpl in *;
    try done.
  injection Heq as -> Heq. f_equal. apply IH; [lia|done].
Qed.

Lemma length_replace (c : Ascii.ascii) (r s : string) :
  (String.length (replace c r s) + occurrences c s
   = String.length s + occurrences c s * String.length r)%nat.
Proof.
  induction s as [|a s IH]; simpl; [done|].
  case_decide; simpl; [rewrite string_length_app|]; lia.
Qed.

Lemma contains_occurrences (c : Ascii.ascii) (s : string) :
  contains c s = true -> (0 < occurrences c s)%nat.
Proof.
  induction s as [|a s IH]; simpl; [done|]. case_decide; [lia|].
  intros Hs. specialize (IH Hs). lia.
Qed.

Lemma replace_inj (c : Ascii.ascii) (s r1 r2 : string) :
  contains c s = true ->
  replace c r1 s = replace c r2 s ->
  r1 = r2.
Proof.
  intros Hs Heq.
  assert (Hlen : String.length r1 = String.length r2).
  { pose proof (length_replace c r1 s) as H1.
    pose proof (length_replace c r2 s) as H2.
    pose proof (contains_occurrences c s Hs) as Hocc.
    rewrite Heq in H1. nia. }
  induction s as [|a s IH]; simpl in *; [done|].
  destruct (decide (a = c)).
  - by apply (string_app_inj_length _ _ _ _ Hlen Heq).
  - injection Heq as Heq. by apply IH.
Qed.

(** X17.  The pipelines that a name with a ["*"] is expanded into have
    pairwise different names when the channels of the device are pairwise
    different, and there are as many of them as channels. *)
Theorem wildcard_names_distinct (pre post : list Device) (dpars : Device)
    (pip : PipelineConf) (ppars : Binding) :
  contains star (p_name pip) = true ->
  p_devices pip = [ppars] ->
  Forall (fun x => d_name x <> b_name ppars) pre ->
  d_name dpars = b_name ppars ->
  NoDup (d_channels dpars) ->
  exists outs,
    get_pipelines (pre ++ dpars :: post) [pip] = Returns outs /\
    length outs = length (d_channels dpars) /\
    NoDup (o_name <$> outs).
Proof.
  intros Hstar Hdevs Hpre Hname Hnodup. eexists. split; [|split].
  - unfold get_pipelines. simpl.
    by rewrite Hstar, (expand_wildcard_first_match _ _ _ _ _ Hdevs Hpre Hname).
  - by rewrite length_map.
  - rewrite <- list_fmap_compose.
    apply NoDup_fmap_2; [|done].
    intros ch1 ch2 Heq. simpl in Heq.
    apply (replace_inj _ _ _ _ Hstar) in Heq. by apply (inj pretty).
Qed.

Lemma wildcard_names_distinct_witness :
  contains star (p_name wildcard_pipeline) = true /\
  p_devices wildcard_pipeline = [worker_binding] /\
  Forall (fun x => d_name x <> b_name worker_binding) [counter_device] /\
  d_name biologic_device = b_name worker_binding /\
  NoDup (d_channels biologic_device) /\
  exists outs,
    get_pipelines ([counter_device] ++ biologic_device :: []) [wildcard_pipeline]
    = Returns outs /\
    length outs = length (d_channels biologic_device) /\
    NoDup (o_name <$> outs).
Proof.
  assert (Hpre : Forall (fun x => d_name x <> b_name worker_binding) [counter_device]).
  { repeat constructor; discriminate. }
  assert (Hnodup : NoDup (d_channels biologic_device)).
  { exact (bool_decide_unpack (NoDup (d_channels biologic_device)) I). }
  split; [reflexivity|]. split; [reflexivity|]. split; [exact Hpre|].
  split; [reflexivity|]. split; [exact Hnodup|].
  apply (wildcard_names_distinct [counter_device] [] biologic_device
           wildcard_pipeline worker_binding eq_refl eq_refl Hpre eq_refl Hnodup).
Defined.

(** ** The pipeline commands *)

Lemma apply_params_load (sample : string) (pip : Pipeline) :
  apply_params {[ "sampleid" := PyStr sample ]} pip
  = {| sampleid := Some sample; ready := ready pip; jobid := jobid pip |}.
Proof.
  unfold apply_params.
  rewrite lookup_singleton_eq. by rewrite lookup_singleton_ne.
Qed.

Lemma apply_params_eject (pip : Pipeline) :
  apply_params {[ "sampleid" := PyNone; "ready" := PyBool false ]} pip
  = {| sampleid := None; ready := false; jobid := jobid pip |}.
Proof. reflexivity. Qed.

Lemma apply_params_ready (pip : Pipeline) :
  apply_params {[ "ready" := PyBool true ]} pip
  = {| sampleid := sampleid pip; ready := true; jobid := jobid pip |}.
Proof. reflexivity. Qed.

Lemma status_answered (port timeout : Z) (net : Net) (pipelines : gmap string Pipeline) :
  0 <= port ->
  daemon net = Some pipelines ->
  status port timeout net
  = (status_only net,
     Some {| success := true;
             msg := "tomato running on port " +:+ pretty port;
             data := DaemonData pipelines |}).
Proof.
  intros Hport Hd. unfold status, send_recv, status_only.
  rewrite decide_False by lia. by rewrite Hd.
Qed.

Lemma status_unanswered (port timeout : Z) (net : Net) :
  0 <= port ->
  daemon net = None ->
  status port timeout net
  = (status_only net,
     if decide (timeout < 0) then None
     else Some {| success := false;
                  msg := "tomato not running on port " +:+ pretty port;
                  data := NoData |}).
Proof.
  intros Hport Hd. unfold status, send_recv, status_only.
  rewrite decide_False by lia. rewrite Hd. by case_decide.
Qed.

(** A negative port: [req.connect] raises before anything is sent. *)
Lemma status_refused (port timeout : Z) (net : Net) :
  port < 0 -> status port timeout net = (net, None).
Proof. intros Hport. unfold status. by rewrite decide_True. Qed.

Lemma run_command_refused (port timeout : Z) (c : Command) (net : Net) :
  port < 0 -> run_command port timeout c net = (net, None).
Proof.
  intros Hport.
  destruct c as [pipeline sample|pipeline|pipeline]; simpl;
    unfold pipeline_load, pipeline_eject, pipeline_ready;
    by rewrite (status_refused _ _ _ Hport).
Qed.

Lemma send_recv_status_only (net : Net) (pipelines : gmap string Pipeline)
    (pipeline : string) (params : gmap string PyVal) (pip : Pipeline) :
  daemon net = Some pipelines ->
  pipelines !! pipeline = Some pip ->
  send_recv (CmdPipeline pipeline params) (status_only net)
  = (mutated net pipelines pipeline params pip,
     Some {| success := true; msg := "pipeline";
             data := PipelineData (apply_params params pip) |}).
Proof.
  intros Hd Hpip. unfold send_recv, status_only, mutated. simpl.
  rewrite Hd. simpl. rewrite Hpip. by rewrite <- app_assoc.
Qed.

(** X18.  [pipeline_load] on a known pipeline, the port not negative: when
    the pipeline is empty, it sends, after the status query, one [pipeline] command with the
    parameter [sampleid] alone, and returns a success reply; the pipeline
    then holds the sample, its [ready] flag and its [jobid] as before.  When
    the pipeline holds a sample, it returns the failure reply "is not empty,
    aborting" and has sent the status query only. *)
Theorem pipeline_load_empty_or_occupied (port timeout : Z) (pipeline sample : string)
    (net : Net) (pipelines : gmap string Pipeline) (pip : Pipeline) :
  0 <= port ->
  daemon net = Some pipelines ->
  pipelines !! pipeline = Some pip ->
  (sampleid pip = None ->
   pipeline_load port timeout pipeline sample net
   = ({| daemon :=
           Some (<[pipeline := {| sampleid := Some sample; ready := ready pip;
                                  jobid := jobid pip |}]> pipelines);
         sent := sent net ++
                 [CmdStatus; CmdPipeline pipeline {[ "sampleid" := PyStr sample ]}] |},
      Some {| success := true;
              msg := "loaded " +:+ sample +:+ " into " +:+ pipeline;
              data := PipelineData {| sampleid := Some sample; ready := ready pip;
                                      jobid := jobid pip |} |})) /\
  (sampleid pip <> None ->
   pipeline_load port timeout pipeline sample net
   = ({| daemon := Some pipelines; sent := sent net ++ [CmdStatus] |},
      Some {| success := false;
              msg := "pipeline " +:+ pipeline +:+ " is not empty, aborting";
              data := PipelineData pip |})).
Proof.
  intros Hport Hd Hpip. unfold pipeline_load.
  rewrite (status_answered _ _ _ _ Hport Hd).
  simpl. rewrite Hpip. split; intros Hsample.
  - rewrite decide_True by done.
    rewrite (send_recv_status_only _ _ _ _ _ Hd Hpip). simpl.
    unfold mutated. by rewrite apply_params_load.
  - rewrite decide_False by done. unfold status_only. by rewrite Hd.
Qed.

Lemma pipeline_load_empty_or_occupied_witness :
  0 <= 1234 /\
  daemon (running example_pipelines) = Some example_pipelines /\
  example_pipelines !! "cell-05" = Some empty_pipeline /\
  example_pipelines !! "cell-04" = Some loaded_pipeline /\
  sampleid empty_pipeline = None /\
  sampleid loaded_pipeline <> None /\
  pipeline_load 1234 3000 "cell-05" "LNO-05" (running example_pipelines)
  = ({| daemon :=
          Some (<["cell-05" := {| sampleid := Some "LNO-05"; ready := ready empty_pipeline;
                                  jobid := jobid empty_pipeline |}]> example_pipelines);
        sent := sent (running example_pipelines) ++
                [CmdStatus; CmdPipeline "cell-05" {[ "sampleid" := PyStr "LNO-05" ]}] |},
     Some {| success := true;
             msg := "loaded " +:+ "LNO-05" +:+ " into " +:+ "cell-05";
             data := PipelineData {| sampleid := Some "LNO-05";
                                     ready := ready empty_pipeline;
                                     jobid := jobid empty_pipeline |} |}) /\
  pipeline_load 1234 3000 "cell-04" "LNO-05" (running example_pipelines)
  = ({| daemon := Some example_pipelines;
        sent := sent (running example_pipelines) ++ [CmdStatus] |},
     Some {| success := false;
             msg := "pipeline " +:+ "cell-04" +:+ " is not empty, aborting";
             data := PipelineData loaded_pipeline |}).
Proof.
  assert (Hport : 0 <= 1234) by lia.
  split; [exact Hport|].
  do 4 (split; [reflexivity|]). split; [discriminate|]. split.
  - apply (pipeline_load_empty_or_occupied 1234 3000 "cell-05" "LNO-05"
             (running example_pipelines) example_pipelines empty_pipeline
             Hport eq_refl eq_refl).
    reflexivity.
  - apply (pipeline_load_empty_or_occupied 1234 3000 "cell-04" "LNO-05"
             (running example_pipelines) example_pipelines loaded_pipeline
             Hport eq_refl eq_refl).
    discriminate.
Defined.

(** X19.  On a pipeline that the daemon does not know, the port not
    negative, [pipeline_load], [pipeline_eject] and [pipeline_ready] return
    the failure reply "not found on tomato", having sent the status query
    only. *)
Theorem unknown_pipeline_not_found (port timeout : Z) (c : Command) (net : Net)
    (pipelines : gmap string Pipeline) :
  0 <= port ->
  daemon net = Some pipelines ->
  pipelines !! target c = None ->
  run_command port timeout c net
  = (status_only net,
     Some {| success := false;
             msg := "pipeline " +:+ target c +:+ " not found on tomato";
             data := match c with
                     | Load _ _ => NoData
                     | _ => PipelinesData pipelines
                     end |}).
Proof.
  intros Hport Hd Hpip.
  destruct c as [pipeline sample|pipeline|pipeline]; simpl in *;
    unfold pipeline_load, pipeline_eject, pipeline_ready;
    rewrite (status_answered _ _ _ _ Hport Hd); simpl; by rewrite Hpip.
Qed.

Lemma unknown_pipeline_not_found_witness :
  0 <= 1234 /\
  daemon (running example_pipelines) = Some example_pipelines /\
  example_pipelines !! target (Eject "cell-99") = None /\
  run_command 1234 3000 (Eject "cell-99") (running example_pipelines)
  = (status_only (running example_pipelines),
     Some {| success := false;
             msg := "pipeline " +:+ target (Eject "cell-99") +:+ " not found on tomato";
             data := PipelinesData example_pipelines |}).
Proof.
  assert (Hport : 0 <= 1234) by lia.
  split; [exact Hport|]. do 2 (split; [reflexivity|]).
  apply (unknown_pipeline_not_found 1234 3000 (Eject "cell-99")
           (running example_pipelines) example_pipelines Hport eq_refl).
  reflexivity.
Defined.

Lemma no_daemon_command_net (port timeout : Z) (c : Command) (net : Net) :
  0 <= port ->
  daemon net = None -> fst (run_command port timeout c net) = status_only net.
Proof.
  intros Hport Hd.
  destruct c as [pipeline sample|pipeline|pipeline]; simpl;
    unfold pipeline_load, pipeline_eject, pipeline_ready;
    rewrite (status_unanswered _ _ _ Hport Hd); by case_decide.
Qed.

(** X20.  With a port that is not negative and a timeout that is not
    negative: when no daemon answers the status query, each of the three
    commands returns the failure reply of [status], "tomato not running on
    port ...", and sends nothing else. *)
Theorem no_daemon_no_command (port timeout : Z) (c : Command) (net : Net) :
  0 <= port ->
  0 <= timeout ->
  daemon net = None ->
  run_command port timeout c net
  = (status_only net,
     Some {| success := false;
             msg := "tomato not running on port " +:+ pretty port;
             data := NoData |}).
Proof.
  intros Hport Htimeout Hd.
  destruct c as [pipeline sample|pipeline|pipeline]; simpl;
    unfold pipeline_load, pipeline_eject, pipeline_ready;
    rewrite (status_unanswered _ _ _ Hport Hd); by rewrite decide_False by lia.
Qed.

Lemma no_daemon_no_command_witness :
  0 <= 1234 /\
  0 <= 3000 /\
  daemon {| daemon := None; sent := [] |} = None /\
  run_command 1234 3000 (Load "cell-01" "LNO-01") {| daemon := None; sent := [] |}
  = (status_only {| daemon := None; sent := [] |},
     Some {| success := false;
             msg := "tomato not running on port " +:+ pretty 1234;
             data := NoData |}).
Proof.
  assert (Hport : 0 <= 1234) by lia.
  assert (Htimeout : 0 <= 3000) by lia.
  split; [exact Hport|]. split; [exact Htimeout|]. split; [reflexivity|].
  apply (no_daemon_no_command 1234 3000 (Load "cell-01" "LNO-01")
           {| daemon := None; sent := [] |} Hport Htimeout).
  reflexivity.
Defined.

Lemma run_command_step (port timeout : Z) (c : Command) (net : Net)
    (pipelines : gmap string Pipeline) :
  0 <= port ->
  daemon net = Some pipelines ->
  fst (run_command port timeout c net)
  = match pipelines !! target c with
    | None => status_only net
    | Some pip =>
        match c with
        | Load pipeline sample =>
            if decide (sampleid pip = None)
            then mutated net pipelines pipeline {[ "sampleid" := PyStr sample ]} pip
            else status_only net
        | Eject pipeline =>
            if decide (sampleid pip = None) then status_only net
            else if decide (jobid pip = None)
            then mutated net pipelines pipeline
                   {[ "sampleid" := PyNone; "ready" := PyBool false ]} pip
            else status_only net
        | Ready pipeline =>
            if ready pip then status_only net
            else if decide (jobid pip = None)
            then mutated net pipelines pipeline {[ "ready" := PyBool true ]} pip
            else status_only net
        end
    end.
Proof.
  intros Hport Hd.
  destruct c as [pipeline sample|pipeline|pipeline]; simpl;
    unfold pipeline_load, pipeline_eject, pipeline_ready;
    rewrite (status_answered _ _ _ _ Hport Hd); simpl;
    destruct (pipelines !! pipeline) as [pip|] eqn:Hpip; try done.
  - case_decide; [|done]. by rewrite (send_recv_status_only _ _ _ _ _ Hd Hpip).
  - case_decide; [done|]. case_decide; [|done].
    by rewrite (send_recv_status_only _ _ _ _ _ Hd Hpip).
  - destruct (ready pip); [done|]. case_decide; [|done].
    by rewrite (send_recv_status_only _ _ _ _ _ Hd Hpip).
Qed.

(** X21.  A pipeline that has a job, is ready and holds a sample is left
    alone by the three commands, the port not negative: each of them sends
    the status query only.  Load and eject answer with a failure, ready with
    "was already ready". *)
Theorem busy_pipeline_untouched (port timeout : Z) (c : Command) (net : Net)
    (pipelines : gmap string Pipeline) (pip : Pipeline) :
  0 <= port ->
  daemon net = Some pipelines ->
  pipelines !! target c = Some pip ->
  jobid pip <> None ->
  consistent pip ->
  fst (run_command port timeout c net) = status_only net /\
  success <$> snd (run_command port timeout c net)
  = Some (match c with Ready _ => true | _ => false end).
Proof.
  intros Hport Hd Hpip Hjob Hcons. destruct (Hcons Hjob) as [Hready Hsample].
  destruct c as [pipeline sample|pipeline|pipeline]; simpl in *;
    unfold pipeline_load, pipeline_eject, pipeline_ready;
    rewrite (status_answered _ _ _ _ Hport Hd); simpl; rewrite Hpip.
  - by rewrite decide_False.
  - rewrite decide_False by done. by rewrite decide_False.
  - by rewrite Hready.
Qed.

Lemma busy_pipeline_untouched_witness :
  0 <= 1234 /\
  daemon (running example_pipelines) = Some example_pipelines /\
  example_pipelines !! target (Eject "cell-01") = Some busy_pipeline /\
  jobid busy_pipeline <> None /\
  consistent busy_pipeline /\
  fst (run_command 1234 3000 (Eject "cell-01") (running example_pipelines))
  = status_only (running example_pipelines) /\
  success <$> snd (run_command 1234 3000 (Eject "cell-01") (running example_pipelines))
  = Some false.
Proof.
  assert (Hcons : consistent busy_pipeline).
  { intros _. split; [reflexivity|discriminate]. }
  assert (Hport : 0 <= 1234) by lia.
  split; [exact Hport|].
  do 2 (split; [reflexivity|]). split; [discriminate|]. split; [exact Hcons|].
  apply (busy_pipeline_untouched 1234 3000 (Eject "cell-01") (running example_pipelines)
           example_pipelines busy_pipeline Hport eq_refl eq_refl);
    [discriminate|exact Hcons].
Defined.

Lemma run_command_keeps (port timeout : Z) (c : Command) (net : Net)
    (pipelines : gmap string Pipeline) :
  daemon net = Some pipelines ->
  map_Forall (fun _ => consistent) pipelines ->
  exists pipelines',
    daemon (fst (run_command port timeout c net)) = Some pipelines' /\
    map_Forall (fun _ => consistent) pipelines' /\
    forall name, jobid <$> (pipelines' !! name) = jobid <$> (pipelines !! name).
Proof.
  intros Hd Hall.
  destruct (decide (port < 0)) as [Hneg|Hport].
  { rewrite (run_command_refused _ _ _ _ Hneg). by exists pipelines. }
  assert (Hport' : 0 <= port) by lia.
  rewrite (run_command_step _ _ _ _ _ Hport' Hd).
  assert (Hsame : exists pipelines',
            daemon (status_only net) = Some pipelines' /\
            map_Forall (fun _ => consistent) pipelines' /\
            forall name, jobid <$> (pipelines' !! name) = jobid <$> (pipelines !! name)).
  { exists pipelines. by rewrite <- Hd. }
  assert (Hnew : forall pipeline params pip,
            pipelines !! pipeline = Some pip ->
            jobid (apply_params params pip) = None ->
            exists pipelines',
              daemon (mutated net pipelines pipeline params pip) = Some pipelines' /\
              map_Forall (fun _ => consistent) pipelines' /\
              forall name, jobid <$> (pipelines' !! name) = jobid <$> (pipelines !! name)).
  { intros pipeline params pip Hpip Hjob. eexists. split; [reflexivity|]. split.
    - apply map_Forall_insert_2; [|done]. intros Hjob'. by rewrite Hjob in Hjob'.
    - intros name. destruct (decide (pipeline = name)) as [<-|Hne].
      + rewrite lookup_insert_eq, Hpip. reflexivity.
      + by rewrite lookup_insert_ne. }
  destruct (pipelines !! target c) as [pip|] eqn:Hpip; [|done].
  pose proof (Hall _ _ Hpip) as Hcons.
  destruct c as [pipeline sample|pipeline|pipeline]; simpl in *.
  - case_decide as Hsample; [|done]. apply Hnew; [done|].
    destruct (jobid pip) eqn:Hjob; [|done].
    exfalso. destruct Hcons as [_ Hloaded]; [by rewrite Hjob|]. done.
  - case_decide; [done|]. case_decide; [|done]. by apply Hnew.
  - destruct (ready pip); [done|]. case_decide; [|done]. by apply Hnew.
Qed.

(** X22.  Whatever sequence of load, eject and ready commands is run
    against a daemon whose pipelines all satisfy "a pipeline with a job is
    ready and holds a sample", the pipelines all satisfy it afterwards, and
    no command has changed the [jobid] of any pipeline. *)
Theorem commands_keep_pipelines_consistent (port timeout : Z) (cs : list Command) (net : Net)
    (pipelines : gmap string Pipeline) :
  daemon net = Some pipelines ->
  map_Forall (fun _ => consistent) pipelines ->
  exists pipelines',
    daemon (run_commands port timeout cs net) = Some pipelines' /\
    map_Forall (fun _ => consistent) pipelines' /\
    forall name, jobid <$> (pipelines' !! name) = jobid <$> (pipelines !! name).
Proof.
  revert net pipelines. induction cs as [|c cs IH]; intros net pipelines Hd Hall.
  - exists pipelines. done.
  - simpl.
    destruct (run_command_keeps port timeout c net pipelines Hd Hall)
      as (pipelines1 & Hd1 & Hall1 & Hjob1).
    destruct (IH _ _ Hd1 Hall1) as (pipelines2 & Hd2 & Hall2 & Hjob2).
    exists pipelines2. split; [done|]. split; [done|].
    intros name. by rewrite Hjob2, Hjob1.
Qed.

Lemma commands_keep_pipelines_consistent_witness :
  daemon (running {[ "cell-01" := busy_pipeline; "cell-05" := empty_pipeline ]})
  = Some {[ "cell-01" := busy_pipeline; "cell-05" := empty_pipeline ]} /\
  map_Forall (fun _ => consistent)
    ({[ "cell-01" := busy_pipeline; "cell-05" := empty_pipeline ]}
       : gmap string Pipeline) /\
  exists pipelines',
    daemon (run_commands 1234 3000
              [Load "cell-05" "LNO-05"; Ready "cell-05"; Eject "cell-01"; Eject "cell-05"]
              (running {[ "cell-01" := busy_pipeline; "cell-05" := empty_pipeline ]}))
    = Some pipelines' /\
    map_Forall (fun _ => consistent) pipelines' /\
    forall name,
      jobid <$> (pipelines' !! name)
      = jobid <$> (({[ "cell-01" := busy_pipeline; "cell-05" := empty_pipeline ]}
                      : gmap string Pipeline) !! name).
Proof.
  assert (Hall : map_Forall (fun _ => consistent)
                   ({[ "cell-01" := busy_pipeline; "cell-05" := empty_pipeline ]}
                      : gmap string Pipeline)).
  { apply map_Forall_insert_2; [|apply map_Forall_singleton].
    - intros _. split; [reflexivity|discriminate].
    - intros Hjob. by contradict Hjob. }
  split; [reflexivity|]. split; [exact Hall|].
  apply (commands_keep_pipelines_consistent 1234 3000
           [Load "cell-05" "LNO-05"; Ready "cell-05"; Eject "cell-01"; Eject "cell-05"]
           (running {[ "cell-01" := busy_pipeline; "cell-05" := empty_pipeline ]})
           {[ "cell-01" := busy_pipeline; "cell-05" := empty_pipeline ]} eq_refl Hall).
Defined.

(** X23.  A pipeline command run a second time changes nothing in the
    daemon: after a load, an eject or a ready, the same command finds its
    own guard closed. *)
Theorem command_twice_changes_nothing (port timeout : Z) (c : Command) (net : Net) :
  daemon (fst (run_command port timeout c (fst (run_command port timeout c net))))
  = daemon (fst (run_command port timeout c net)).
Proof.
  destruct (decide (port < 0)) as [Hneg|Hport'].
  { by rewrite !(run_command_refused _ _ _ _ Hneg). }
  assert (Hport : 0 <= port) by lia.
  destruct (daemon net) as [pipelines|] eqn:Hd.
  2:{ rewrite (no_daemon_command_net port timeout c net Hport Hd).
      by rewrite (no_daemon_command_net port timeout c (status_only net) Hport Hd). }
  assert (Hd' : daemon (status_only net) = Some pipelines) by exact Hd.
  rewrite (run_command_step _ _ _ net _ Hport Hd).
  pose proof (run_command_step port timeout c (status_only net) pipelines Hport Hd')
    as Hquiet.
  assert (Hloud : forall params pip,
            fst (run_command port timeout c (mutated net pipelines (target c) params pip))
            = match <[target c := apply_params params pip]> pipelines !! target c with
              | None => status_only (mutated net pipelines (target c) params pip)
              | Some pip' =>
                  match c with
                  | Load pipeline sample =>
                      if decide (sampleid pip' = None)
                      then mutated (mutated net pipelines (target c) params pip)
                             (<[target c := apply_params params pip]> pipelines)
                             pipeline {[ "sampleid" := PyStr sample ]} pip'
                      else status_only (mutated net pipelines (target c) params pip)
                  | Eject pipeline =>
                      if decide (sampleid pip' = None)
                      then status_only (mutated net pipelines (target c) params pip)
                      else if decide (jobid pip' = None)
                      then mutated (mutated net pipelines (target c) params pip)
                             (<[target c := apply_params params pip]> pipelines)
                             pipeline {[ "sampleid" := PyNone; "ready" := PyBool false ]} pip'
                      else status_only (mutated net pipelines (target c) params pip)
                  | Ready pipeline =>
                      if ready pip'
                      then status_only (mutated net pipelines (target c) params pip)
                      else if decide (jobid pip' = None)
                      then mutated (mutated net pipelines (target c) params pip)
                             (<[target c := apply_params params pip]> pipelines)
                             pipeline {[ "ready" := PyBool true ]} pip'
                      else status_only (mutated net pipelines (target c) params pip)
                  end
              end).
  { intros params pip. by apply run_command_step. }
  destruct (pipelines !! target c) as [pip|] eqn:Hpip; [|by rewrite Hquiet].
  destruct c as [pipeline sample|pipeline|pipeline]; simpl in *.
  - case_decide as Hsample.
    + by rewrite Hloud, lookup_insert_eq, apply_params_load.
    + by rewrite Hquiet.
  - case_decide as Hsample; [by rewrite Hquiet|].
    case_decide as Hjob.
    + by rewrite Hloud, lookup_insert_eq.
    + by rewrite Hquiet.
  - destruct (ready pip) eqn:Hready; [by rewrite Hquiet|].
    case_decide as Hjob.
    + by rewrite Hloud, lookup_insert_eq.
    + by rewrite Hquiet.
Qed.

(** X24.  A load followed by an eject of the same pipeline, the port not
    negative, on a pipeline that is empty and has no job: the pipeline is empty again and not ready;
    when it was not ready before, the pipelines of the daemon are as they
    were. *)
Theorem load_then_eject (port timeout : Z) (pipeline sample : string) (net : Net)
    (pipelines : gmap string Pipeline) (pip : Pipeline) :
  0 <= port ->
  daemon net = Some pipelines ->
  pipelines !! pipeline = Some pip ->
  sampleid pip = None ->
  jobid pip = None ->
  daemon (run_commands port timeout [Load pipeline sample; Eject pipeline] net)
  = Some (<[pipeline := {| sampleid := None; ready := false; jobid := None |}]> pipelines)
  /\ (ready pip = false ->
      daemon (run_commands port timeout [Load pipeline sample; Eject pipeline] net)
      = Some pipelines).
Proof.
  intros Hport Hd Hpip Hsample Hjob.
  assert (Hrun : daemon (run_commands port timeout [Load pipeline sample; Eject pipeline] net)
                 = Some (<[pipeline := {| sampleid := None; ready := false;
                                          jobid := None |}]> pipelines)).
  { pose proof (run_command_step port timeout (Load pipeline sample) net pipelines
                  Hport Hd) as H1.
    simpl in H1. rewrite Hpip in H1. rewrite decide_True in H1 by done.
    pose proof (run_command_step port timeout (Eject pipeline)
                  (mutated net pipelines pipeline {[ "sampleid" := PyStr sample ]} pip)
                  (<[pipeline := apply_params {[ "sampleid" := PyStr sample ]} pip]>
                     pipelines) Hport eq_refl) as H2.
    simpl in H2. rewrite lookup_insert_eq, apply_params_load in H2. simpl in H2.
    rewrite Hjob in H2. simpl in H2.
    simpl. rewrite H1, H2. simpl. by rewrite insert_insert_eq, apply_params_eject. }
  split; [exact Hrun|].
  intros Hready. rewrite Hrun. f_equal. apply insert_id.
  rewrite Hpip. f_equal. destruct pip; simpl in *; by subst.
Qed.

Lemma load_then_eject_witness :
  0 <= 1234 /\
  daemon (running example_pipelines) = Some example_pipelines /\
  example_pipelines !! "cell-05" = Some empty_pipeline /\
  sampleid empty_pipeline = None /\
  jobid empty_pipeline = None /\
  ready empty_pipeline = false /\
  daemon (run_commands 1234 3000 [Load "cell-05" "LNO-05"; Eject "cell-05"]
            (running example_pipelines))
  = Some example_pipelines.
Proof.
  assert (Hport : 0 <= 1234) by lia.
  split; [exact Hport|]. do 5 (split; [reflexivity|]).
  apply (load_then_eject 1234 3000 "cell-05" "LNO-05" (running example_pipelines)
           example_pipelines empty_pipeline Hport); reflexivity.
Defined.

(** X27.  [pipeline_ready] on a known pipeline that is not ready and has
    no job, the port not negative, sends, after the status query, one [pipeline] command with the
    parameter [ready = True] alone and returns a success reply; the pipeline
    is then ready, its sample as before: a pipeline without a sample is
    marked ready as well. *)
Theorem pipeline_ready_idle (port timeout : Z) (pipeline : string) (net : Net)
    (pipelines : gmap string Pipeline) (pip : Pipeline) :
  0 <= port ->
  daemon net = Some pipelines ->
  pipelines !! pipeline = Some pip ->
  ready pip = false ->
  jobid pip = None ->
  pipeline_ready port timeout pipeline net
  = ({| daemon :=
          Some (<[pipeline := {| sampleid := sampleid pip; ready := true;
                                 jobid := None |}]> pipelines);
        sent := sent net ++
                [CmdStatus; CmdPipeline pipeline {[ "ready" := PyBool true ]}] |},
     Some {| success := true;
             msg := "pipeline " +:+ pipeline +:+ " set as ready";
             data := PipelineData {| sampleid := sampleid pip; ready := true;
                                     jobid := None |} |}).
Proof.
  intros Hport Hd Hpip Hready Hjob. unfold pipeline_ready.
  rewrite (status_answered _ _ _ _ Hport Hd). simpl. rewrite Hpip, Hready.
  rewrite decide_True by done.
  rewrite (send_recv_status_only _ _ _ _ _ Hd Hpip). simpl.
  unfold mutated. by rewrite apply_params_ready, Hjob.
Qed.

Lemma pipeline_ready_idle_witness :
  0 <= 1234 /\
  daemon (running example_pipelines) = Some example_pipelines /\
  example_pipelines !! "cell-05" = Some empty_pipeline /\
  ready empty_pipeline = false /\
  jobid empty_pipeline = None /\
  pipeline_ready 1234 3000 "cell-05" (running example_pipelines)
  = ({| daemon :=
          Some (<["cell-05" := {| sampleid := sampleid empty_pipeline; ready := true;
                                  jobid := None |}]> example_pipelines);
        sent := sent (running example_pipelines) ++
                [CmdStatus; CmdPipeline "cell-05" {[ "ready" := PyBool true ]}] |},
     Some {| success := true;
             msg := "pipeline " +:+ "cell-05" +:+ " set as ready";
             data := PipelineData {| sampleid := sampleid empty_pipeline; ready := true;
                                     jobid := None |} |}).
Proof.
  assert (Hport : 0 <= 1234) by lia.
  split; [exact Hport|]. do 4 (split; [reflexivity|]).
  apply (pipeline_ready_idle 1234 3000 "cell-05" (running example_pipelines)
           example_pipelines empty_pipeline Hport); reflexivity.
Defined.

End TomatoProofs.

(** * The log level of the entry points *)

Module EntryProofs.
Import Tomato Entry.

Lemma levelToName_lookup (loglevel : Z) :
  levelToName !! loglevel
  = if decide (loglevel ∈ [0; 10; 20; 30; 40; 50])
    then Some (default "" (levelToName !! loglevel)) else None.
Proof.
  case_decide as Hin.
  - repeat (apply elem_of_cons in Hin as [->|Hin]; [reflexivity|]).
    by apply elem_of_nil in Hin.
  - unfold levelToName.
    repeat (rewrite lookup_insert_ne by (intros <-; apply Hin; set_solver)).
    rewrite lookup_singleton_ne; [done|]. intros <-. apply Hin. set_solver.
Qed.

(** X25.  [run_tomato] always sets a log level that [set_loglevel] knows:
    INFO (20) when the [--verbose] and [--quiet] flags are as many, ten more
    for each [--verbose] in excess up to CRITICAL (50), and DEBUG (10) when
    [--quiet] is in excess. *)
Theorem run_tomato_loglevel_total (verbose quiet : Z) :
  run_tomato_loglevel verbose quiet
  = Returns (if decide (verbose < quiet) then 10
             else if decide (quiet + 3 <= verbose) then 50
             else 20 + 10 * (verbose - quiet)).
Proof.
  unfold run_tomato_loglevel, set_loglevel.
  destruct (decide (verbose < quiet)) as [Hlow|Hlow].
  { by replace (Z.min (Z.max ((2 + verbose - quiet) * 10) 10) 50) with 10 by lia. }
  destruct (decide (quiet + 3 <= verbose)) as [Hhigh|Hhigh].
  { by replace (Z.min (Z.max ((2 + verbose - quiet) * 10) 10) 50) with 50 by lia. }
  assert (verbose - quiet = 0 \/ verbose - quiet = 1 \/ verbose - quiet = 2)
    as [Hd|[Hd|Hd]] by lia;
    replace (Z.min (Z.max ((2 + verbose - quiet) * 10) 10) 50)
      with (20 + 10 * (verbose - quiet)) by lia;
    by rewrite Hd.
Qed.

(** X26.  [run_ketchup] hands the difference of the counts of [--verbose]
    and [--quiet] to [set_loglevel] as it is: unless that difference is one
    of 0, 10, 20, 30, 40 and 50, [set_loglevel] raises [KeyError]; a single
    [--verbose] is enough. *)
Theorem run_ketchup_loglevel_key_error (verbose quiet : Z) :
  run_ketchup_loglevel verbose quiet
  = if decide (verbose - quiet ∈ [0; 10; 20; 30; 40; 50])
    then Returns (verbose - quiet)
    else Raises (KeyError (verbose - quiet)).
Proof.
  unfold run_ketchup_loglevel, set_loglevel.
  rewrite levelToName_lookup. by case_decide.
Qed.

Example run_ketchup_verbose : run_ketchup_loglevel 1 0 = Raises (KeyError 1).
Proof. reflexivity. Qed.

End EntryProofs.
